(** * AlfTooltip: the deferred show / deferred hide tooltip widget

    A shallow embedding of [alfresco/misc/AlfTooltip.js].  The widget instance
    ([this]) is a record, the browser and toolkit around it (clock, timer
    queue of [setTimeout], listeners registered with [dojo/on], the calls made
    to [processWidgets], [dijit/TooltipDialog] and [dijit/popup]) are a second
    record, and every method is a function on the pair of them. *)

From Stdlib Require Import List NArith PeanoNat String Bool Lia Sorted Permutation.
Import ListNotations.
Local Open Scope N_scope.

(** ** Data *)

(** A widget model is the JSON array handed to [processWidgets]; only the
    module names of its entries are kept. *)
Definition Model := list string.

(** DOM nodes the widget touches: its own [domNode], and the [div]s made by
    [domConstruct.create("div")], told apart by allocation number. *)
Inductive Node :=
| DomNode
| Div (n : N).

(** A [dijit/TooltipDialog] instance, by object identity. *)
Definition Dialog := N.

(** The methods of the widget that are bound with [lang.hitch(this, ...)] and
    handed to a timer, a listener or the dialog. *)
Inductive Method :=
| ShowTooltip
| HideTooltip
| OnMouseover
| OnMouseout
| OnTooltipMouseover
| OnTooltipMouseout.

Definition Method_eqb (a b : Method) : bool :=
  match a, b with
  | ShowTooltip, ShowTooltip | HideTooltip, HideTooltip
  | OnMouseover, OnMouseover | OnMouseout, OnMouseout
  | OnTooltipMouseover, OnTooltipMouseover
  | OnTooltipMouseout, OnTooltipMouseout => true
  | _, _ => false
  end.

(** The instance fields of the widget. *)
Record Widget := mkWidget {
  id : string;
  widgetsForTooltip : option Model;
  widgets : option Model;
  _tooltip : option Dialog;
  tooltipStyle : option string;
  triggeringEvent : string;
  mouseoverShowDelay : N;
  mouseoutHideDelay : N;
  _showTooltipTimeout : N;
  _hideTooltipTimeout : N;
  dialogContent : option Node
}.

(** A pending [setTimeout]: the id it returned, the time it is due, and the
    bound method it will call. *)
Record Timer := mkTimer {
  tid : N;
  due : N;
  cb : Method
}.

(** Calls the widget makes to its collaborators, in the order it makes them. *)
Inductive Call :=
| CreateDiv (n : Node)
| ProcessWidgets (model : option Model) (target : Node)
| NewTooltipDialog (dialogId : string) (style : option string) (content : Node)
| PopupOpen (popup : Dialog) (around : Node)
| PopupClose (popup : option Dialog)
| AlfLog (level : string) (message : string)
| DialogDestroy (popup : Dialog).

(** The browser and the toolkit: a clock in milliseconds, the timers of
    [setTimeout] in firing order, the next timer id and object identity, the
    listeners registered on [domNode], and the time-stamped calls so far. *)
Record Page := mkPage {
  clock : N;
  nextTimer : N;
  queue : list Timer;
  nextObj : N;
  listeners : list (string * Method);
  trace : list (N * Call)
}.

Record State := mkState {
  this : Widget;
  page : Page
}.

(** *** Field updates *)

Definition set_tooltip (d : option Dialog) (w : Widget) : Widget :=
  mkWidget (id w) (widgetsForTooltip w) (widgets w) d (tooltipStyle w)
    (triggeringEvent w) (mouseoverShowDelay w) (mouseoutHideDelay w)
    (_showTooltipTimeout w) (_hideTooltipTimeout w) (dialogContent w).

Definition set_showTooltipTimeout (n : N) (w : Widget) : Widget :=
  mkWidget (id w) (widgetsForTooltip w) (widgets w) (_tooltip w) (tooltipStyle w)
    (triggeringEvent w) (mouseoverShowDelay w) (mouseoutHideDelay w)
    n (_hideTooltipTimeout w) (dialogContent w).

Definition set_hideTooltipTimeout (n : N) (w : Widget) : Widget :=
  mkWidget (id w) (widgetsForTooltip w) (widgets w) (_tooltip w) (tooltipStyle w)
    (triggeringEvent w) (mouseoverShowDelay w) (mouseoutHideDelay w)
    (_showTooltipTimeout w) n (dialogContent w).

Definition set_dialogContent (c : option Node) (w : Widget) : Widget :=
  mkWidget (id w) (widgetsForTooltip w) (widgets w) (_tooltip w) (tooltipStyle w)
    (triggeringEvent w) (mouseoverShowDelay w) (mouseoutHideDelay w)
    (_showTooltipTimeout w) (_hideTooltipTimeout w) c.

Definition set_clock (t : N) (p : Page) : Page :=
  mkPage t (nextTimer p) (queue p) (nextObj p) (listeners p) (trace p).

Definition set_queue (n : N) (q : list Timer) (p : Page) : Page :=
  mkPage (clock p) n q (nextObj p) (listeners p) (trace p).

Definition set_nextObj (n : N) (p : Page) : Page :=
  mkPage (clock p) (nextTimer p) (queue p) n (listeners p) (trace p).

Definition set_listeners (l : list (string * Method)) (p : Page) : Page :=
  mkPage (clock p) (nextTimer p) (queue p) (nextObj p) l (trace p).

Definition set_trace (l : list (N * Call)) (p : Page) : Page :=
  mkPage (clock p) (nextTimer p) (queue p) (nextObj p) (listeners p) l.

Definition on_this (f : Widget -> Widget) (s : State) : State :=
  mkState (f (this s)) (page s).

Definition on_page (f : Page -> Page) (s : State) : State :=
  mkState (this s) (f (page s)).

(** ** The browser primitives *)

(** A call to a collaborator is recorded with the time it was made at. *)
Definition call (c : Call) (s : State) : State :=
  on_page (fun p => set_trace (trace p ++ [(clock p, c)]) p) s.

(** A fresh object identity. *)
Definition alloc (s : State) : N * State :=
  (nextObj (page s), on_page (fun p => set_nextObj (N.succ (nextObj p)) p) s).

(** The timer queue is kept in firing order: by due time, and among timers due
    at the same time the one scheduled first goes first. *)
Fixpoint enqueue (tm : Timer) (q : list Timer) : list Timer :=
  match q with
  | [] => [tm]
  | x :: q' => if due x <=? due tm then x :: enqueue tm q' else tm :: q
  end.

Definition in_order (q : list Timer) : Prop :=
  StronglySorted (fun a b => due a <= due b) q.

(** [setTimeout(lang.hitch(this, m), delay)]: returns a fresh id. *)
Definition setTimeout (m : Method) (delay : N) (s : State) : N * State :=
  let p := page s in
  let n := nextTimer p in
  (n, on_page (set_queue (N.succ n)
                 (enqueue (mkTimer n (clock p + delay) m) (queue p))) s).

(** [clearTimeout(n)]: the timer of that id, if still pending, never fires;
    any other [n] (0, an id that fired or was cleared) changes nothing. *)
Definition clearTimeout (n : N) (s : State) : State :=
  on_page (fun p =>
    set_queue (nextTimer p) (filter (fun tm => negb (tid tm =? n)) (queue p)) p) s.

(** [on(this.domNode, name, lang.hitch(this, m))]. *)
Definition on (name : string) (m : Method) (s : State) : State :=
  on_page (fun p => set_listeners (listeners p ++ [(name, m)]) p) s.

(** ** The methods of the widget *)

(** What a collaborator may do when [showTooltip] calls it: nothing goes
    wrong, or one of [processWidgets], [new TooltipDialog] and [popup.open]
    raises. *)
Inductive Fault :=
| NoFault
| BuildThrows
| CreateThrows
| OpenThrows.

Inductive Outcome :=
| Returned
| Threw.

Definition popup_open (f : Fault) (d : Dialog) (s : State) : Outcome * State :=
  let s' := call (PopupOpen d DomNode) s in
  match f with
  | OpenThrows => (Threw, s')
  | _ => (Returned, s')
  end.

(** [showTooltip]: builds the dialog when [_tooltip] is not set, then opens
    it.  Nothing is caught, so state changed before a collaborator raises
    stays changed. *)
Definition showTooltip (f : Fault) (s : State) : Outcome * State :=
  match _tooltip (this s) with
  | Some d => popup_open f d s
  | None =>
      let (n, s1) := alloc s in
      let s2 := on_this (set_dialogContent (Some (Div n))) (call (CreateDiv (Div n)) s1) in
      let s3 := call (ProcessWidgets (widgetsForTooltip (this s2)) (Div n)) s2 in
      match f with
      | BuildThrows => (Threw, s3)
      | _ =>
          let s4 := call (NewTooltipDialog (id (this s3) ++ "_TOOLTIP")
                            (tooltipStyle (this s3)) (Div n)) s3 in
          match f with
          | CreateThrows => (Threw, s4)
          | _ =>
              let (d, s5) := alloc s4 in
              popup_open f d (on_this (set_tooltip (Some d)) s5)
          end
      end
  end.

(** [hideTooltip]: [popup.close(this._tooltip)]. *)
Definition hideTooltip (s : State) : State :=
  call (PopupClose (_tooltip (this s))) s.

Definition onMouseover (s : State) : State :=
  let s1 := clearTimeout (_hideTooltipTimeout (this s)) s in
  let (n, s2) := setTimeout ShowTooltip (mouseoverShowDelay (this s1)) s1 in
  on_this (set_showTooltipTimeout n) s2.

Definition onMouseout (s : State) : State :=
  let s1 := clearTimeout (_showTooltipTimeout (this s)) s in
  let (n, s2) := setTimeout HideTooltip (mouseoutHideDelay (this s1)) s1 in
  on_this (set_hideTooltipTimeout n) s2.

Definition onTooltipMouseover (s : State) : State :=
  clearTimeout (_hideTooltipTimeout (this s)) s.

Definition onTooltipMouseout (s : State) : State :=
  let (n, s1) := setTimeout HideTooltip (mouseoutHideDelay (this s)) s in
  on_this (set_hideTooltipTimeout n) s1.

Definition postCreate (s : State) : State :=
  let s1 :=
    match widgetsForTooltip (this s) with
    | Some _ =>
        if (triggeringEvent (this s) =? "mouseover")%string
        then on "mouseout" OnMouseout (on "mouseover" OnMouseover s)
        else on (triggeringEvent (this s)) ShowTooltip s
    | None =>
        call (AlfLog "warn"
          "A tooltip dialog was configured without a 'widgetsForTooltip' attribute") s
    end in
  match widgets (this s1) with
  | Some m => call (ProcessWidgets (Some m) DomNode) s1
  | None => s1
  end.

(** ** The event loop *)

(** A bound method called by the browser (a timer, a listener, the dialog).
    The collaborators of such a call return normally; an exception would
    surface in the browser's console and is studied on [showTooltip] itself. *)
Definition invoke (m : Method) (s : State) : State :=
  match m with
  | ShowTooltip => snd (showTooltip NoFault s)
  | HideTooltip => hideTooltip s
  | OnMouseover => onMouseover s
  | OnMouseout => onMouseout s
  | OnTooltipMouseover => onTooltipMouseover s
  | OnTooltipMouseout => onTooltipMouseout s
  end.

(** The state a timer callback starts in: the timer has left the queue and
    the clock stands at its due time. *)
Definition popped (tm : Timer) (q : list Timer) (s : State) : State :=
  on_page (fun p => set_clock (N.max (clock p) (due tm)) (set_queue (nextTimer p) q p)) s.

(** The first timer of the queue fires if it is due by [t]: it leaves the
    queue, the clock moves to its due time, and its callback runs. *)
Definition fire_next (t : N) (s : State) : option State :=
  match queue (page s) with
  | tm :: q =>
      if due tm <=? t then Some (invoke (cb tm) (popped tm q s)) else None
  | [] => None
  end.

Fixpoint run_timers (fuel : nat) (t : N) (s : State) : State :=
  match fuel with
  | O => s
  | S fuel' =>
      match fire_next t s with
      | Some s' => run_timers fuel' t s'
      | None => s
      end
  end.

(** The clock reaches [t]: every timer due by then fires, in order.  No
    callback of this widget schedules a timer, so one round per queued timer
    is enough ([advance_fires_all] below). *)
Definition advance (t : N) (s : State) : State :=
  on_page (fun p => set_clock (N.max (clock p) t) p)
    (run_timers (List.length (queue (page s))) t s).

(** What the page can do to the widget: an event named [name] reaches
    [domNode]; the pointer enters or leaves the tooltip dialog
    ([onMouseEnter] / [onMouseLeave], wired when the dialog is created);
    the clock reaches [t]. *)
Inductive Event :=
| Dom (name : string)
| OverlayEnter
| OverlayLeave
| Tick (t : N).

Definition dispatch (name : string) (s : State) : State :=
  fold_left (fun s' l => if (fst l =? name)%string then invoke (snd l) s' else s')
    (listeners (page s)) s.

Definition deliver (e : Event) (s : State) : State :=
  match e with
  | Dom name => dispatch name s
  | OverlayEnter =>
      match _tooltip (this s) with
      | Some _ => invoke OnTooltipMouseover s
      | None => s
      end
  | OverlayLeave =>
      match _tooltip (this s) with
      | Some _ => invoke OnTooltipMouseout s
      | None => s
      end
  | Tick t => advance t s
  end.

(** An operation on the widget is an event of the page or a direct call of
    one of its methods. *)
Inductive Op :=
| Ev (e : Event)
| Do (m : Method).

Definition step (o : Op) (s : State) : State :=
  match o with
  | Ev e => deliver e s
  | Do m => invoke m s
  end.

Definition run (ops : list Op) (s : State) : State :=
  fold_left (fun s' o => step o s') ops s.

Definition run_events (es : list Event) (s : State) : State :=
  run (map Ev es) s.

(** ** Construction *)

(** The configuration mixed into the instance; a field left out keeps the
    default of the prototype. *)
Record Config := mkConfig {
  cfg_id : string;
  cfg_widgetsForTooltip : option Model;
  cfg_widgets : option Model;
  cfg_tooltipStyle : option string;
  cfg_triggeringEvent : option string;
  cfg_mouseoverShowDelay : option N;
  cfg_mouseoutHideDelay : option N
}.

Definition or_default {A} (o : option A) (d : A) : A :=
  match o with
  | Some a => a
  | None => d
  end.

Definition instance (c : Config) : Widget :=
  mkWidget (cfg_id c) (cfg_widgetsForTooltip c) (cfg_widgets c) None
    (cfg_tooltipStyle c)
    (or_default (cfg_triggeringEvent c) "mouseover"%string)
    (or_default (cfg_mouseoverShowDelay c) 250)
    (or_default (cfg_mouseoutHideDelay c) 250)
    0 0 None.

(** A page at time 0 with nothing pending; timer ids start at 1. *)
Definition blank : Page := mkPage 0 1 [] 0 [] [].

(** The widget as the toolkit hands it over: instantiated, [postCreate] run. *)
Definition create (c : Config) : State :=
  postCreate (mkState (instance c) blank).

(** ** Observations on a state *)

Definition is_method (m : Method) (tm : Timer) : bool := Method_eqb (cb tm) m.

Definition live (m : Method) (s : State) : list Timer :=
  filter (is_method m) (queue (page s)).

(** The callbacks the widget itself hands to [setTimeout]. *)
Definition timer_method (tm : Timer) : Prop :=
  cb tm = ShowTooltip \/ cb tm = HideTooltip.

Definition calls (s : State) : list Call := map snd (trace (page s)).

Definition is_open (c : Call) : bool :=
  match c with PopupOpen _ _ => true | _ => false end.

Definition is_close (c : Call) : bool :=
  match c with PopupClose _ => true | _ => false end.

Definition is_build (c : Call) : bool :=
  match c with ProcessWidgets _ (Div _) => true | _ => false end.


(** The calls only [showTooltip] makes. *)
Definition is_show_call (c : Call) : bool :=
  match c with
  | CreateDiv _ | ProcessWidgets _ (Div _) | NewTooltipDialog _ _ _
  | PopupOpen _ _ => true
  | _ => false
  end.

Definition count (f : Call -> bool) (s : State) : nat :=
  List.length (filter f (calls s)).

(** The times at which [popup.open] was called. *)
Definition shown_at (s : State) : list N :=
  map fst (filter (fun e => is_open (snd e)) (trace (page s))).

(** Timer bookkeeping: the id the widget keeps for each kind of timer, and
    whether every pending timer is the one the widget has on record. *)
Definition is_recorded (w : Widget) (tm : Timer) : bool :=
  match cb tm with
  | ShowTooltip => tid tm =? _showTooltipTimeout w
  | HideTooltip => tid tm =? _hideTooltipTimeout w
  | _ => false
  end.

Definition recorded (s : State) : bool :=
  forallb (is_recorded (this s)) (queue (page s)).

Definition at_most_one (m : Method) (s : State) : bool :=
  Nat.leb (List.length (live m s)) 1.

Definition tidy (s : State) : bool :=
  recorded s && at_most_one ShowTooltip s && at_most_one HideTooltip s.

(** ** Teardown *)


(** ** Timed pointer sequences on the trigger *)

Inductive Pointer :=
| Enter
| Leave.

Definition handler (p : Pointer) : Method :=
  match p with
  | Enter => OnMouseover
  | Leave => OnMouseout
  end.

(** The pointer event [p] at time [t]: the clock reaches [t], then the
    handler runs. *)
Definition timed (l : list (N * Pointer)) : list Op :=
  flat_map (fun e => [Ev (Tick (fst e)); Do (handler (snd e))]) l.

(** The same sequence as events of the page: mouseover and mouseout on
    [domNode]. *)
Definition pointer_event (p : Pointer) : Event :=
  match p with
  | Enter => Dom "mouseover"
  | Leave => Dom "mouseout"
  end.

Definition page_events (l : list (N * Pointer)) : list Event :=
  flat_map (fun e => [Tick (fst e); pointer_event (snd e)]) l.



(** ** Pointer movement over the overlay *)

Definition is_overlay_leave (e : Event) : bool :=
  match e with OverlayLeave => true | _ => false end.

(** The pointer leaves the overlay only after it entered it. *)
Fixpoint pointer_paired (inside : bool) (es : list Event) : bool :=
  match es with
  | [] => true
  | OverlayEnter :: r => pointer_paired true r
  | OverlayLeave :: r => inside && pointer_paired false r
  | _ :: r => pointer_paired inside r
  end.

(** Some overlay-enter of [es] is followed by an overlay-leave. *)
Fixpoint entered_then_left (inside : bool) (es : list Event) : bool :=
  match es with
  | [] => false
  | OverlayEnter :: r => entered_then_left true r
  | OverlayLeave :: r => inside || entered_then_left inside r
  | _ :: r => entered_then_left inside r
  end.

(** The calls of a [showTooltip] that has to build the dialog, up to the
    collaborator that raises. *)
Definition construction (f : Fault) (s : State) : list Call :=
  let n := nextObj (page s) in
  [CreateDiv (Div n); ProcessWidgets (widgetsForTooltip (this s)) (Div n)]
  ++ match f with
     | BuildThrows => []
     | CreateThrows =>
         [NewTooltipDialog (id (this s) ++ "_TOOLTIP") (tooltipStyle (this s)) (Div n)]
     | _ =>
         [NewTooltipDialog (id (this s) ++ "_TOOLTIP") (tooltipStyle (this s)) (Div n);
          PopupOpen (N.succ n) DomNode]
     end.

(** ** Sample configurations *)

(** The first example of the module documentation: a logo with a label as
    tooltip, every other field left to its default (hover, 250ms delays). *)
Definition logo_hover : Config :=
  mkConfig "TT" (Some ["alfresco/html/Label"%string])
    (Some ["alfresco/logo/Logo"%string]) None None None None.

(** The third example: shown on click, with a width. *)
Definition logo_click : Config :=
  mkConfig "TT" (Some ["alfresco/html/Label"%string])
    (Some ["alfresco/logo/Logo"%string]) (Some "width: 350px;"%string)
    (Some "click"%string) None None.

(** A tooltip configured without [widgetsForTooltip]. *)
Definition logo_only : Config :=
  mkConfig "TT" None (Some ["alfresco/logo/Logo"%string]) None None None None.

Definition click_without_content : Config :=
  mkConfig "TT" None (Some ["alfresco/logo/Logo"%string]) None
    (Some "click"%string) None None.





(** A widget whose listeners all call [showTooltip] and whose pending timers
    are all hide timers. *)
Definition explicit_only (s : State) : Prop :=
  Forall (fun l => snd l = ShowTooltip) (listeners (page s)) /\
  Forall (fun tm => cb tm = HideTooltip) (queue (page s)).

(** ** States a widget can reach *)

(** The fields of the instance that come from the configuration: putting
    the four fields the methods write back to their initial values gives
    the instance as it was made. *)
Definition same_config (c : Config) (w : Widget) : Prop :=
  set_tooltip None
    (set_showTooltipTimeout 0
       (set_hideTooltipTimeout 0 (set_dialogContent None w)))
  = instance c.

(** The calls that build and first open the dialog of a widget made from
    [c]; the content [div] and the dialog get the first two object
    identities. *)
Definition built_calls (c : Config) : list Call :=
  [CreateDiv (Div 0);
   ProcessWidgets (cfg_widgetsForTooltip c) (Div 0);
   NewTooltipDialog (cfg_id c ++ "_TOOLTIP") (cfg_tooltipStyle c) (Div 0);
   PopupOpen 1 DomNode].

(** A call on the dialog once it exists. *)
Definition on_dialog (x : Call) : Prop :=
  x = PopupOpen 1 DomNode \/ x = PopupClose (Some 1).

(** The life of a widget made from [c], as its calls tell it: after the
    calls of [postCreate], any number of [popup.close] on the unset handle;
    then, if the dialog was built, the calls that built it, followed by
    calls that open or close that dialog. *)
Definition lifecycle (c : Config) (s : State) : Prop :=
  same_config c (this s) /\
  listeners (page s) = listeners (page (create c)) /\
  match _tooltip (this s) with
  | None =>
      nextObj (page s) = 0 /\ dialogContent (this s) = None /\
      exists k, calls s = calls (create c) ++ repeat (PopupClose None) k
  | Some d =>
      d = 1 /\ dialogContent (this s) = Some (Div 0) /\
      exists k after,
        calls s = calls (create c) ++ repeat (PopupClose None) k
                  ++ built_calls c ++ after /\
        Forall on_dialog after
  end.

(** The timer queue as [setTimeout] and [clearTimeout] keep it: in firing
    order, holding only callbacks the widget schedules, under ids that are
    positive, distinct and below the next id [n]. *)
Definition well_kept (n : N) (q : list Timer) : Prop :=
  in_order q /\
  Forall timer_method q /\
  NoDup (map tid q) /\
  Forall (fun tm => 1 <= tid tm < n) q /\
  1 <= n.

Definition queue_ok (s : State) : Prop :=
  well_kept (nextTimer (page s)) (queue (page s)).

(** The calls of [postCreate] on the primary content and to the log. *)
Definition is_primary (x : Call) : bool :=
  match x with ProcessWidgets _ DomNode => true | _ => false end.

Definition is_warning (x : Call) : bool :=
  match x with AlfLog _ _ => true | _ => false end.


(** No two consecutive pointer events of the same kind. *)
Fixpoint alternating (l : list (N * Pointer)) : bool :=
  match l with
  | [] => true
  | (t1, p1) :: l' =>
      match l' with
      | [] => true
      | (t2, p2) :: _ =>
          match p1, p2 with
          | Enter, Leave | Leave, Enter => alternating l'
          | _, _ => false
          end
      end
  end.

(** The timer kind the next pointer event of [l] schedules is not pending. *)
Definition ready_for (l : list (N * Pointer)) (s : State) : Prop :=
  match l with
  | [] => True
  | (_, Enter) :: _ => live ShowTooltip s = []
  | (_, Leave) :: _ => live HideTooltip s = []
  end.

(** Successive calls of [showTooltip], each with what its collaborators do. *)
Definition attempts (fs : list Fault) (s : State) : State :=
  fold_left (fun s' f => snd (showTooltip f s')) fs s.

(** * Properties *)

(** ** Frame lemmas: what each method leaves alone *)

Lemma showTooltip_timers f s :
  let s' := snd (showTooltip f s) in
  queue (page s') = queue (page s) /\
  nextTimer (page s') = nextTimer (page s) /\
  clock (page s') = clock (page s) /\
  listeners (page s') = listeners (page s) /\
  _showTooltipTimeout (this s') = _showTooltipTimeout (this s) /\
  _hideTooltipTimeout (this s') = _hideTooltipTimeout (this s).
Proof.
  unfold showTooltip.
  destruct (_tooltip (this s)); destruct f; cbn; repeat split; reflexivity.
Qed.

Lemma hideTooltip_frame s :
  this (hideTooltip s) = this s /\
  queue (page (hideTooltip s)) = queue (page s) /\
  nextTimer (page (hideTooltip s)) = nextTimer (page s) /\
  clock (page (hideTooltip s)) = clock (page s) /\
  listeners (page (hideTooltip s)) = listeners (page s).
Proof. repeat split; reflexivity. Qed.

Lemma calls_call c s : calls (call c s) = calls s ++ [c].
Proof.
  unfold calls, call. cbn. rewrite map_app. reflexivity.
Qed.

Lemma count_call f c s :
  count f (call c s) = (count f s + if f c then 1 else 0)%nat.
Proof.
  unfold count. rewrite calls_call, filter_app, length_app. cbn.
  destruct (f c); reflexivity.
Qed.

(** ** hideTooltip *)

(** C4, as stated, fails: on a widget whose tooltip was never built, a pass of
    the pointer over the trigger (enter at 0, leave at 100) lets the hide
    timer fire at 350, and [hideTooltip] then calls [popup.close] with the
    unset handle. *)
Lemma C4_close_called_without_handle :
  let s := run_events [Tick 0; Dom "mouseover"; Tick 100; Dom "mouseout"; Tick 1000]
             (create logo_hover) in
  _tooltip (this s) = None /\
  count is_open s = 0%nat /\
  filter (fun e => is_close (snd e)) (trace (page s)) = [(350, PopupClose None)] /\
  calls (hideTooltip (create logo_hover))
  = calls (create logo_hover) ++ [PopupClose None].
Proof. vm_compute. repeat split; reflexivity. Qed.

(** C4, amended: [hideTooltip] calls [popup.close] exactly once on every
    call, with whatever [_tooltip] holds (the dialog when it was built, the
    unset value when it never was), and changes nothing else: not the
    widget's fields, not the timers, not the clock. *)
Theorem C4_hideTooltip_always_calls_close (s : State) :
  trace (page (hideTooltip s))
  = trace (page s) ++ [(clock (page s), PopupClose (_tooltip (this s)))] /\
  count is_close (hideTooltip s) = S (count is_close s) /\
  this (hideTooltip s) = this s /\
  queue (page (hideTooltip s)) = queue (page s) /\
  clock (page (hideTooltip s)) = clock (page s).
Proof.
  unfold hideTooltip. rewrite count_call. cbn.
  repeat split; try reflexivity. lia.
Qed.

(** ** showTooltip *)

Lemma showTooltip_present f d s :
  _tooltip (this s) = Some d -> showTooltip f s = popup_open f d s.
Proof. intros H. unfold showTooltip. rewrite H. reflexivity. Qed.

Lemma popup_open_spec f d s :
  let r := popup_open f d s in
  this (snd r) = this s /\
  calls (snd r) = calls s ++ [PopupOpen d DomNode] /\
  fst r = match f with OpenThrows => Threw | _ => Returned end.
Proof.
  unfold popup_open.
  destruct f; cbn [fst snd]; rewrite calls_call; repeat split.
Qed.

Lemma showTooltip_absent f s :
  _tooltip (this s) = None ->
  let r := showTooltip f s in
  calls (snd r) = calls s ++ construction f s /\
  fst r = match f with NoFault => Returned | _ => Threw end /\
  _tooltip (this (snd r))
  = match f with
    | BuildThrows | CreateThrows => None
    | _ => Some (N.succ (nextObj (page s)))
    end /\
  nextObj (page (snd r))
  = match f with
    | BuildThrows | CreateThrows => N.succ (nextObj (page s))
    | _ => N.succ (N.succ (nextObj (page s)))
    end.
Proof.
  intros H. unfold showTooltip. rewrite H.
  destruct s as [w p]. cbn in H. subst.
  unfold construction, calls.
  destruct f; cbn; rewrite ?map_app, <- ?app_assoc; cbn;
    repeat split; try reflexivity; rewrite H; reflexivity.
Qed.

(** C5, as stated, fails for [popup.open]: when it raises on the first
    [showTooltip], the dialog built just before is already stored in
    [_tooltip], and the next [showTooltip] builds nothing. *)
Lemma C5_open_failure_keeps_handle :
  let r := showTooltip OpenThrows (create logo_hover) in
  _tooltip (this (create logo_hover)) = None /\
  fst r = Threw /\
  _tooltip (this (snd r)) = Some 1 /\
  count is_build (snd (showTooltip NoFault (snd r))) = count is_build (snd r).
Proof. vm_compute. repeat split; reflexivity. Qed.

(** C5, amended: [showTooltip] catches nothing, so a failure of
    [processWidgets], [new TooltipDialog] or [popup.open] reaches its caller.
    When [processWidgets] or [new TooltipDialog] raises, [_tooltip] stays
    unset, nothing is opened, and the next [showTooltip] constructs from
    scratch.  When [popup.open] raises, the dialog just built is already
    stored in [_tooltip]: every later [showTooltip] reuses it and only calls
    [popup.open]. *)
Theorem C5_failure_during_showTooltip (s : State) (H : _tooltip (this s) = None) :
  (forall f, f = BuildThrows \/ f = CreateThrows ->
     let r := showTooltip f s in
     fst r = Threw /\
     _tooltip (this (snd r)) = None /\
     count is_open (snd r) = count is_open s /\
     let r' := showTooltip NoFault (snd r) in
     fst r' = Returned /\
     calls (snd r') = calls (snd r) ++ construction NoFault (snd r))
  /\
  (let r := showTooltip OpenThrows s in
   let d := N.succ (nextObj (page s)) in
   fst r = Threw /\
   _tooltip (this (snd r)) = Some d /\
   forall f',
     let r' := showTooltip f' (snd r) in
     calls (snd r') = calls (snd r) ++ [PopupOpen d DomNode] /\
     _tooltip (this (snd r')) = Some d).
Proof.
  split.
  - intros f Hf r.
    destruct (showTooltip_absent f s H) as (Hc & Ho & Ht & _). fold r in Hc, Ho, Ht.
    assert (Hnone : _tooltip (this (snd r)) = None)
      by (destruct Hf; subst f; exact Ht).
    repeat split.
    + destruct Hf; subst f; exact Ho.
    + exact Hnone.
    + unfold count. rewrite Hc, filter_app, length_app.
      destruct Hf; subst f; cbn; lia.
    + apply (showTooltip_absent NoFault (snd r) Hnone).
    + apply (showTooltip_absent NoFault (snd r) Hnone).
  - intros r d.
    destruct (showTooltip_absent OpenThrows s H) as (_ & Ho & Ht & _).
    fold r in Ho, Ht. repeat split; try assumption.
    + rewrite (showTooltip_present f' d (snd r) Ht).
      apply popup_open_spec.
    + rewrite (showTooltip_present f' d (snd r) Ht).
      destruct (popup_open_spec f' d (snd r)) as (Hthis & _).
      cbn zeta in Hthis. rewrite Hthis. exact Ht.
Qed.

Lemma C5_failure_during_showTooltip_witness :
  _tooltip (this (create logo_hover)) = None /\
  _tooltip (this (snd (showTooltip BuildThrows (create logo_hover)))) = None /\
  _tooltip (this (snd (showTooltip OpenThrows (create logo_hover)))) = Some 1.
Proof.
  assert (H : _tooltip (this (create logo_hover)) = None) by reflexivity.
  pose proof (C5_failure_during_showTooltip (create logo_hover) H) as [Hb Ho].
  split; [exact H|]. split.
  - destruct (Hb BuildThrows (or_introl eq_refl)) as (_ & Hnone & _). exact Hnone.
  - destruct Ho as (_ & Hsome & _). exact Hsome.
Defined.

(** ** The timer queue *)

Section Queue.

Variable f : Timer -> bool.

Lemma filter_enqueue_out tm q :
  f tm = false -> filter f (enqueue tm q) = filter f q.
Proof.
  intros Hf. induction q as [|x q IH]; cbn.
  - now rewrite Hf.
  - destruct (due x <=? due tm); cbn.
    + now rewrite IH.
    + now rewrite Hf.
Qed.

Lemma filter_enqueue_in tm q :
  f tm = true -> filter f q = [] -> filter f (enqueue tm q) = [tm].
Proof.
  intros Hf. induction q as [|x q IH]; cbn.
  - now rewrite Hf.
  - destruct (f x) eqn:Hx; [discriminate|]. intros Hq.
    destruct (due x <=? due tm); cbn.
    + rewrite Hx. now apply IH.
    + now rewrite Hf, Hx, Hq.
Qed.

Lemma forallb_enqueue tm q :
  forallb f (enqueue tm q) = f tm && forallb f q.
Proof.
  induction q as [|x q IH]; cbn.
  - reflexivity.
  - destruct (due x <=? due tm); cbn.
    + rewrite IH. destruct (f x), (f tm); reflexivity.
    + reflexivity.
Qed.

End Queue.

Lemma In_enqueue tm x q : In x (enqueue tm q) <-> x = tm \/ In x q.
Proof.
  induction q as [|y q IH]; cbn.
  - intuition congruence.
  - destruct (due y <=? due tm); cbn; rewrite ?IH; intuition congruence.
Qed.

(** In a state whose pending timers are all on record, clearing the recorded
    timer of one kind leaves no timer of that kind. *)
Lemma clear_recorded_hide w q :
  forallb (is_recorded w) q = true ->
  filter (is_method HideTooltip)
    (filter (fun tm => negb (tid tm =? _hideTooltipTimeout w)) q) = [].
Proof.
  induction q as [|x q IH]; cbn; [reflexivity|].
  intros H. apply andb_true_iff in H as [Hx Hq].
  unfold is_recorded in Hx.
  destruct (tid x =? _hideTooltipTimeout w) eqn:E; cbn; [now apply IH|].
  unfold is_method at 1. destruct (cb x); cbn; try now apply IH.
  congruence.
Qed.

Lemma clear_recorded_show w q :
  forallb (is_recorded w) q = true ->
  filter (is_method ShowTooltip)
    (filter (fun tm => negb (tid tm =? _showTooltipTimeout w)) q) = [].
Proof.
  induction q as [|x q IH]; cbn; [reflexivity|].
  intros H. apply andb_true_iff in H as [Hx Hq].
  unfold is_recorded in Hx.
  destruct (tid x =? _showTooltipTimeout w) eqn:E; cbn; [now apply IH|].
  unfold is_method at 1. destruct (cb x); cbn; try now apply IH.
  congruence.
Qed.

(** A queue of recorded timers holds show and hide timers only. *)
Lemma recorded_two_kinds w q :
  forallb (is_recorded w) q = true ->
  filter (is_method ShowTooltip) q = [] ->
  filter (is_method HideTooltip) q = [] ->
  q = [].
Proof.
  destruct q as [|x q]; cbn; [reflexivity|].
  intros H. apply andb_true_iff in H as [Hx _].
  unfold is_recorded in Hx. unfold is_method.
  destruct (cb x); cbn; congruence.
Qed.

Lemma filter_filter_comm {A} (g h : A -> bool) l :
  filter g (filter h l) = filter h (filter g l).
Proof.
  induction l as [|x l IH]; cbn; [reflexivity|].
  destruct (g x) eqn:Hg, (h x) eqn:Hh; cbn; rewrite ?Hg, ?Hh, IH; reflexivity.
Qed.

Lemma forallb_filter_weaken {A} (g h : A -> bool) l :
  forallb g l = true -> forallb g (filter h l) = true.
Proof.
  induction l as [|x l IH]; cbn; [reflexivity|].
  intros H. apply andb_true_iff in H as [Hx Hl].
  destruct (h x); cbn; rewrite ?Hx; auto.
Qed.

(** Changing the recorded id of a kind does not matter to a queue that holds
    no timer of that kind. *)
Lemma recorded_set_show n w q :
  filter (is_method ShowTooltip) q = [] ->
  forallb (is_recorded (set_showTooltipTimeout n w)) q = forallb (is_recorded w) q.
Proof.
  induction q as [|x q IH]; cbn [filter forallb]; [reflexivity|].
  destruct (is_method _ x) eqn:Hx; [discriminate|].
  intros H. rewrite (IH H). f_equal.
  unfold is_method in Hx. unfold is_recorded.
  destruct (cb x); cbn in *; congruence.
Qed.

Lemma recorded_set_hide n w q :
  filter (is_method HideTooltip) q = [] ->
  forallb (is_recorded (set_hideTooltipTimeout n w)) q = forallb (is_recorded w) q.
Proof.
  induction q as [|x q IH]; cbn [filter forallb]; [reflexivity|].
  destruct (is_method _ x) eqn:Hx; [discriminate|].
  intros H. rewrite (IH H). f_equal.
  unfold is_method in Hx. unfold is_recorded.
  destruct (cb x); cbn in *; congruence.
Qed.

(** ** The pointer handlers *)

Lemma onMouseover_spec s :
  let n := nextTimer (page s) in
  queue (page (onMouseover s))
  = enqueue (mkTimer n (clock (page s) + mouseoverShowDelay (this s)) ShowTooltip)
      (filter (fun tm => negb (tid tm =? _hideTooltipTimeout (this s))) (queue (page s))) /\
  this (onMouseover s) = set_showTooltipTimeout n (this s) /\
  nextTimer (page (onMouseover s)) = N.succ n /\
  clock (page (onMouseover s)) = clock (page s) /\
  trace (page (onMouseover s)) = trace (page s) /\
  listeners (page (onMouseover s)) = listeners (page s).
Proof. repeat split. Qed.

Lemma onMouseout_spec s :
  let n := nextTimer (page s) in
  queue (page (onMouseout s))
  = enqueue (mkTimer n (clock (page s) + mouseoutHideDelay (this s)) HideTooltip)
      (filter (fun tm => negb (tid tm =? _showTooltipTimeout (this s))) (queue (page s))) /\
  this (onMouseout s) = set_hideTooltipTimeout n (this s) /\
  nextTimer (page (onMouseout s)) = N.succ n /\
  clock (page (onMouseout s)) = clock (page s) /\
  trace (page (onMouseout s)) = trace (page s) /\
  listeners (page (onMouseout s)) = listeners (page s).
Proof. repeat split. Qed.

Lemma onTooltipMouseout_spec s :
  let n := nextTimer (page s) in
  queue (page (onTooltipMouseout s))
  = enqueue (mkTimer n (clock (page s) + mouseoutHideDelay (this s)) HideTooltip)
      (queue (page s)) /\
  this (onTooltipMouseout s) = set_hideTooltipTimeout n (this s) /\
  nextTimer (page (onTooltipMouseout s)) = N.succ n /\
  clock (page (onTooltipMouseout s)) = clock (page s) /\
  trace (page (onTooltipMouseout s)) = trace (page s) /\
  listeners (page (onTooltipMouseout s)) = listeners (page s).
Proof. repeat split. Qed.

Lemma onTooltipMouseover_spec s :
  queue (page (onTooltipMouseover s))
  = filter (fun tm => negb (tid tm =? _hideTooltipTimeout (this s))) (queue (page s)) /\
  this (onTooltipMouseover s) = this s /\
  nextTimer (page (onTooltipMouseover s)) = nextTimer (page s) /\
  clock (page (onTooltipMouseover s)) = clock (page s) /\
  trace (page (onTooltipMouseover s)) = trace (page s) /\
  listeners (page (onTooltipMouseover s)) = listeners (page s).
Proof. repeat split. Qed.

(** C1, as stated, fails: [onMouseover] does not cancel the show timer that
    is already pending.  After an enter at 0 and a second enter at 100 two
    show timers are live, and both fire (at 250 and at 350).  Likewise
    [onTooltipMouseout] after [onMouseout] leaves two hide timers live. *)
Lemma C1_same_kind_timer_not_cancelled :
  let s := run_events [Tick 0; Dom "mouseover"; Tick 100; Dom "mouseover"]
             (create logo_hover) in
  live ShowTooltip s = [mkTimer 1 250 ShowTooltip; mkTimer 2 350 ShowTooltip] /\
  shown_at (advance 1000 s) = [250; 350] /\
  List.length (live HideTooltip (onTooltipMouseout (onMouseout (create logo_hover))))
  = 2%nat.
Proof. vm_compute. repeat split; reflexivity. Qed.

(** C1, amended: scheduling never cancels a timer of the kind it schedules.
    [onMouseover] cancels the recorded hide timer and schedules a show timer,
    [onMouseout] cancels the recorded show timer and schedules a hide timer,
    [onTooltipMouseout] schedules a hide timer and cancels nothing.  So, from
    a state where every pending timer is the one on record (at most one of
    each kind), at most one live timer of each kind exists after the call,
    the one just scheduled, provided no timer of the kind being scheduled
    was pending when the handler ran. *)
Theorem C1_schedule_without_same_kind_pending (s : State) (Ht : tidy s = true) :
  (live ShowTooltip s = [] ->
   let s' := onMouseover s in
   queue (page s')
   = [mkTimer (nextTimer (page s))
        (clock (page s) + mouseoverShowDelay (this s)) ShowTooltip] /\
   _showTooltipTimeout (this s') = nextTimer (page s) /\
   tidy s' = true)
  /\
  (live HideTooltip s = [] ->
   let s' := onMouseout s in
   queue (page s')
   = [mkTimer (nextTimer (page s))
        (clock (page s) + mouseoutHideDelay (this s)) HideTooltip] /\
   _hideTooltipTimeout (this s') = nextTimer (page s) /\
   tidy s' = true)
  /\
  (live HideTooltip s = [] ->
   let s' := onTooltipMouseout s in
   live HideTooltip s'
   = [mkTimer (nextTimer (page s))
        (clock (page s) + mouseoutHideDelay (this s)) HideTooltip] /\
   live ShowTooltip s' = live ShowTooltip s /\
   _hideTooltipTimeout (this s') = nextTimer (page s) /\
   tidy s' = true).
Proof.
  unfold tidy in Ht.
  apply andb_true_iff in Ht as [Ht Hh]. apply andb_true_iff in Ht as [Hr Hs].
  unfold recorded in Hr.
  assert (Hclear_h :
    live ShowTooltip s = [] ->
    filter (fun tm => negb (tid tm =? _hideTooltipTimeout (this s))) (queue (page s)) = []).
  { intros H0. apply (recorded_two_kinds (this s)).
    - now apply forallb_filter_weaken.
    - rewrite filter_filter_comm. unfold live in H0. now rewrite H0.
    - now apply clear_recorded_hide. }
  assert (Hclear_s :
    live HideTooltip s = [] ->
    filter (fun tm => negb (tid tm =? _showTooltipTimeout (this s))) (queue (page s)) = []).
  { intros H0. apply (recorded_two_kinds (this s)).
    - now apply forallb_filter_weaken.
    - now apply clear_recorded_show.
    - rewrite filter_filter_comm. unfold live in H0. now rewrite H0. }
  split; [|split].
  - intros H0 s'.
    destruct (onMouseover_spec s) as (Hq & Hw & _). fold s' in Hq, Hw.
    rewrite (Hclear_h H0) in Hq. cbn [enqueue] in Hq.
    split; [exact Hq|]. split; [now rewrite Hw|].
    + unfold tidy, recorded, at_most_one, live. rewrite Hq, Hw. cbn.
      now rewrite N.eqb_refl.
  - intros H0 s'.
    destruct (onMouseout_spec s) as (Hq & Hw & _). fold s' in Hq, Hw.
    rewrite (Hclear_s H0) in Hq. cbn [enqueue] in Hq.
    split; [exact Hq|]. split; [now rewrite Hw|].
    + unfold tidy, recorded, at_most_one, live. rewrite Hq, Hw. cbn.
      now rewrite N.eqb_refl.
  - intros H0 s'.
    destruct (onTooltipMouseout_spec s) as (Hq & Hw & _). fold s' in Hq, Hw.
    assert (Hlh : live HideTooltip s'
                  = [mkTimer (nextTimer (page s))
                       (clock (page s) + mouseoutHideDelay (this s)) HideTooltip]).
    { unfold live. rewrite Hq. now apply filter_enqueue_in. }
    assert (Hls : live ShowTooltip s' = live ShowTooltip s).
    { unfold live. rewrite Hq. now apply filter_enqueue_out. }
    split; [exact Hlh|]. split; [exact Hls|]. split; [now rewrite Hw|].
    unfold tidy, at_most_one. rewrite Hlh, Hls.
    unfold at_most_one in Hs. rewrite Hs.
    unfold recorded. rewrite Hq, Hw, forallb_enqueue.
    rewrite (recorded_set_hide _ _ _ H0), Hr.
    unfold is_recorded. cbn. now rewrite N.eqb_refl.
Qed.

Lemma C1_schedule_without_same_kind_pending_witness :
  tidy (create logo_hover) = true /\
  queue (page (onMouseover (create logo_hover))) = [mkTimer 1 250 ShowTooltip] /\
  queue (page (onMouseout (onMouseover (create logo_hover))))
  = [mkTimer 2 250 HideTooltip].
Proof.
  split; [reflexivity|]. split.
  - apply (C1_schedule_without_same_kind_pending (create logo_hover)); reflexivity.
  - apply (C1_schedule_without_same_kind_pending (onMouseover (create logo_hover)));
      reflexivity.
Defined.

(** ** The event loop *)

Lemma fire_next_Some t s s' :
  fire_next t s = Some s' ->
  exists tm q,
    queue (page s) = tm :: q /\ due tm <= t /\ s' = invoke (cb tm) (popped tm q s).
Proof.
  unfold fire_next. destruct (queue (page s)) as [|tm q]; [discriminate|].
  destruct (due tm <=? t) eqn:E; [|discriminate].
  intros H. injection H as <-. exists tm, q.
  apply N.leb_le in E. repeat split; assumption.
Qed.

Lemma fire_next_None t s :
  fire_next t s = None ->
  match queue (page s) with
  | [] => True
  | tm :: _ => t < due tm
  end.
Proof.
  unfold fire_next. destruct (queue (page s)) as [|tm q]; [trivial|].
  destruct (due tm <=? t) eqn:E; [discriminate|].
  intros _. now apply N.leb_gt in E.
Qed.

(** A property kept by every firing is kept by [run_timers]. *)
Lemma run_timers_invariant (P : State -> Prop) t :
  (forall s tm q,
     P s -> queue (page s) = tm :: q -> due tm <= t ->
     P (invoke (cb tm) (popped tm q s))) ->
  forall fuel s, P s -> P (run_timers fuel t s).
Proof.
  intros Hstep. induction fuel as [|fuel IH]; cbn; intros s Hs; [exact Hs|].
  destruct (fire_next t s) as [s'|] eqn:E; [|exact Hs].
  apply fire_next_Some in E as (tm & q & Hq & Hd & ->).
  apply IH. now apply (Hstep s tm q).
Qed.

(** The callbacks the widget hands to [setTimeout] leave the queue alone. *)
Lemma callback_keeps_queue tm q s :
  timer_method tm ->
  queue (page (invoke (cb tm) (popped tm q s))) = q.
Proof.
  intros [H|H]; rewrite H; cbn [invoke].
  - now destruct (showTooltip_timers NoFault (popped tm q s)) as (-> & _).
  - reflexivity.
Qed.

(** With a round per queued timer, [run_timers] stops only when nothing more
    is due: the timer at the head of the queue, if any, is due after [t]. *)
Lemma run_timers_fires_all t :
  forall fuel s,
    Forall timer_method (queue (page s)) ->
    (List.length (queue (page s)) <= fuel)%nat ->
    match queue (page (run_timers fuel t s)) with
    | [] => True
    | tm :: _ => t < due tm
    end.
Proof.
  induction fuel as [|fuel IH]; cbn [run_timers]; intros s Hm Hl.
  - destruct (queue (page s)); [trivial|cbn in Hl; lia].
  - destruct (fire_next t s) as [s'|] eqn:E.
    + apply fire_next_Some in E as (tm & q & Hq & Hd & ->).
      rewrite Hq in Hm, Hl. inversion Hm as [|? ? Htm Hrest]; subst.
      assert (Hq' := callback_keeps_queue tm q s Htm).
      apply IH; rewrite Hq'; [assumption|cbn in Hl; lia].
    + now apply fire_next_None.
Qed.

Lemma advance_fires_all t s :
  Forall timer_method (queue (page s)) ->
  match queue (page (advance t s)) with
  | [] => True
  | tm :: _ => t < due tm
  end.
Proof.
  intros H. unfold advance. cbn.
  now apply run_timers_fires_all.
Qed.

(** The queue stays in firing order under [setTimeout] and [clearTimeout]. *)
Lemma enqueue_in_order tm q : in_order q -> in_order (enqueue tm q).
Proof.
  unfold in_order. induction q as [|x q IH]; intros H; cbn.
  - repeat constructor.
  - inversion H as [|? ? Hq Hx]; subst.
    destruct (due x <=? due tm) eqn:E.
    + apply N.leb_le in E. constructor; [now apply IH|].
      apply Forall_forall. intros y Hy. apply In_enqueue in Hy as [-> | Hy];
        [exact E|].
      rewrite Forall_forall in Hx. now apply Hx.
    + apply N.leb_gt in E. constructor; [exact H|].
      constructor; [lia|].
      apply Forall_forall. intros y Hy. rewrite Forall_forall in Hx.
      specialize (Hx y Hy). lia.
Qed.

Lemma filter_in_order g q : in_order q -> in_order (filter g q).
Proof.
  unfold in_order. induction q as [|x q IH]; intros H; cbn; [constructor|].
  inversion H as [|? ? Hq Hx]; subst.
  destruct (g x); [|now apply IH].
  constructor; [now apply IH|].
  apply Forall_forall. intros y Hy. apply filter_In in Hy as [Hy _].
  rewrite Forall_forall in Hx. now apply Hx.
Qed.

Lemma in_order_suffix fired rest : in_order (fired ++ rest) -> in_order rest.
Proof.
  unfold in_order. induction fired as [|x fired IH]; cbn; intros H; [exact H|].
  inversion H; subst. now apply IH.
Qed.

Lemma advance_suffix t s :
  Forall timer_method (queue (page s)) ->
  exists fired, queue (page s) = fired ++ queue (page (advance t s)).
Proof.
  intros Hm. unfold advance. cbn [page on_page queue set_clock].
  apply run_timers_invariant with
    (P := fun s' => exists fired, queue (page s) = fired ++ queue (page s'));
    [|now exists []].
  intros s1 tm q (fired & Hf) Hq _.
  assert (Htm : timer_method tm).
  { rewrite Forall_forall in Hm. apply Hm. rewrite Hf, Hq.
    apply in_or_app. right. now left. }
  rewrite (callback_keeps_queue tm q s1 Htm).
  exists (fired ++ [tm]). rewrite <- app_assoc. cbn. now rewrite <- Hq.
Qed.

(** Moving the clock to [t] leaves exactly the timers due after [t]. *)
Lemma advance_leaves_later_timers t s :
  in_order (queue (page s)) ->
  Forall timer_method (queue (page s)) ->
  Forall (fun tm => t < due tm) (queue (page (advance t s))).
Proof.
  intros Ho Hm.
  destruct (advance_suffix t s Hm) as (fired & Hf).
  rewrite Hf in Ho. apply in_order_suffix in Ho.
  pose proof (advance_fires_all t s Hm) as Hhead.
  destruct (queue (page (advance t s))) as [|tm q]; [constructor|].
  inversion Ho as [|? ? _ Hall]; subst.
  constructor; [exact Hhead|].
  apply Forall_forall. intros y Hy. rewrite Forall_forall in Hall.
  specialize (Hall y Hy). lia.
Qed.

Lemma advance_empty t s :
  queue (page s) = [] ->
  this (advance t s) = this s /\
  trace (page (advance t s)) = trace (page s) /\
  queue (page (advance t s)) = [] /\
  listeners (page (advance t s)) = listeners (page s) /\
  nextTimer (page (advance t s)) = nextTimer (page s) /\
  clock (page (advance t s)) = N.max (clock (page s)) t.
Proof.
  intros H. unfold advance. rewrite H. cbn. now rewrite H.
Qed.

(** ** Rapid passes of the pointer over the trigger *)




Lemma live_nil_suffix m s s' fired :
  live m s = [] -> queue (page s) = fired ++ queue (page s') -> live m s' = [].
Proof.
  unfold live. intros H Hq. rewrite Hq, filter_app in H.
  now apply app_eq_nil in H as [_ H].
Qed.


Lemma timed_cons t p l s :
  run (timed ((t, p) :: l)) s = run (timed l) (invoke (handler p) (advance t s)).
Proof. reflexivity. Qed.


(** ** The freshly created widget *)

Lemma create_unfold c :
  create c
  = let s0 := mkState (instance c) blank in
    let s1 :=
      match cfg_widgetsForTooltip c with
      | Some _ =>
          if (triggeringEvent (instance c) =? "mouseover")%string
          then on "mouseout" OnMouseout (on "mouseover" OnMouseover s0)
          else on (triggeringEvent (instance c)) ShowTooltip s0
      | None =>
          call (AlfLog "warn"
            "A tooltip dialog was configured without a 'widgetsForTooltip' attribute") s0
      end in
    match cfg_widgets c with
    | Some m => call (ProcessWidgets (Some m) DomNode) s1
    | None => s1
    end.
Proof.
  destruct c as [i wt w st te sd hd]. unfold create, postCreate.
  destruct wt; cbn [this instance widgetsForTooltip triggeringEvent
                    cfg_widgetsForTooltip cfg_triggeringEvent cfg_widgets];
    [destruct (or_default te "mouseover" =? "mouseover")%string|];
    reflexivity.
Qed.

Ltac create_cases c :=
  rewrite (create_unfold c); cbv zeta;
  destruct (cfg_widgetsForTooltip c);
  [destruct (triggeringEvent (instance c) =? "mouseover")%string|];
  destruct (cfg_widgets c).

Lemma create_page c :
  this (create c) = instance c /\
  queue (page (create c)) = [] /\
  clock (page (create c)) = 0 /\
  nextTimer (page (create c)) = 1 /\
  nextObj (page (create c)) = 0.
Proof. create_cases c; repeat split. Qed.

Lemma create_calls c :
  calls (create c)
  = match cfg_widgetsForTooltip c with
    | Some _ => []
    | None =>
        [AlfLog "warn"
           "A tooltip dialog was configured without a 'widgetsForTooltip' attribute"]
    end
    ++ match cfg_widgets c with
       | Some m => [ProcessWidgets (Some m) DomNode]
       | None => []
       end.
Proof. create_cases c; reflexivity. Qed.

Lemma create_listeners c :
  listeners (page (create c))
  = match cfg_widgetsForTooltip c with
    | Some _ =>
        if (triggeringEvent (instance c) =? "mouseover")%string
        then [("mouseover"%string, OnMouseover); ("mouseout"%string, OnMouseout)]
        else [(triggeringEvent (instance c), ShowTooltip)]
    | None => []
    end.
Proof.
  rewrite (create_unfold c); cbv zeta.
  destruct (cfg_widgetsForTooltip c);
    [destruct (triggeringEvent (instance c) =? "mouseover")%string|];
    destruct (cfg_widgets c); reflexivity.
Qed.

Lemma create_count g c :
  (forall m, g (ProcessWidgets m DomNode) = false) ->
  (forall l m, g (AlfLog l m) = false) ->
  count g (create c) = 0%nat.
Proof.
  intros Hp Ha. unfold count. rewrite create_calls.
  destruct (cfg_widgetsForTooltip c), (cfg_widgets c); cbn; rewrite ?Hp, ?Ha; reflexivity.
Qed.

Lemma no_show_call_not_shown s :
  count is_show_call s = 0%nat -> shown_at s = [].
Proof.
  unfold count, calls, shown_at. intros H.
  apply length_zero_iff_nil in H.
  induction (trace (page s)) as [|[t c] l IH]; [reflexivity|].
  cbn in *. destruct (is_show_call c) eqn:E; [discriminate|].
  destruct c; try discriminate; cbn; auto.
Qed.





(** ** The scenario enter at 0, leave at 100, enter at 150 *)

(** C9: with both delays at 250ms, after enter at 0, leave at 100 and enter
    at 150, the show timer of the first enter is gone (the leave cancelled
    it, and the second enter cancelled the leave's hide timer), nothing has
    been shown, the only pending timer is the show timer due at 400, and
    however far the clock then moves, [popup.open] is called at 400 and at
    no other time. *)
Theorem C9_enter_leave_enter
    (c : Config)
    (Hshow : mouseoverShowDelay (instance c) = 250)
    (Hhide : mouseoutHideDelay (instance c) = 250) :
  let s1 := run (timed [(0, Enter); (100, Leave)]) (create c) in
  let s := run (timed [(150, Enter)]) s1 in
  queue (page s1) = [mkTimer 2 350 HideTooltip] /\
  shown_at s = [] /\
  queue (page s) = [mkTimer 3 400 ShowTooltip] /\
  forall t, shown_at (advance t s) = if t <? 400 then [] else [400].
Proof.
  rewrite (create_unfold c). cbv zeta.
  destruct c as [i wt w st te sd hd]. cbn in Hshow, Hhide.
  cbv [instance cfg_id cfg_widgetsForTooltip cfg_widgets cfg_tooltipStyle
       cfg_triggeringEvent cfg_mouseoverShowDelay cfg_mouseoutHideDelay
       triggeringEvent].
  rewrite Hshow, Hhide.
  destruct wt as [m|];
    [destruct (or_default te "mouseover" =? "mouseover")%string|];
    destruct w as [w|].
  all: split; [vm_compute; reflexivity|].
  all: split; [vm_compute; reflexivity|].
  all: split; [vm_compute; reflexivity|].
  all: intros t; rewrite N.ltb_antisym.
  all: unfold advance, timed, run; cbn [flat_map app map fold_left step deliver fst snd].
  all: destruct (400 <=? t) eqn:E; vm_compute in E |- *; rewrite E; reflexivity.
Qed.

Lemma C9_enter_leave_enter_witness :
  mouseoverShowDelay (instance logo_hover) = 250 /\
  mouseoutHideDelay (instance logo_hover) = 250 /\
  let s := run (timed [(0, Enter); (100, Leave); (150, Enter)]) (create logo_hover) in
  shown_at (advance 399 s) = [] /\ shown_at (advance 400 s) = [400] /\
  shown_at (advance 100000 s) = [400].
Proof.
  pose proof (C9_enter_leave_enter logo_hover eq_refl eq_refl) as (_ & _ & _ & H).
  split; [reflexivity|]. split; [reflexivity|].
  split; [apply (H 399)|]. split; [apply (H 400) | apply (H 100000)].
Defined.

(** ** Pointer events of the page on a hover tooltip *)

Lemma invoke_listeners m s : listeners (page (invoke m s)) = listeners (page s).
Proof.
  destruct m; try reflexivity. cbn [invoke].
  now destruct (showTooltip_timers NoFault s) as (_ & _ & _ & H & _).
Qed.

Lemma advance_listeners t s : listeners (page (advance t s)) = listeners (page s).
Proof.
  unfold advance. cbn [page on_page listeners set_clock].
  apply run_timers_invariant with
    (P := fun s' => listeners (page s') = listeners (page s)); [|reflexivity].
  intros s1 tm q H _ _. now rewrite invoke_listeners.
Qed.

(** With the two listeners of a hover tooltip registered, a mouseover or
    mouseout event of the page is a call of the matching handler. *)
Lemma hover_dispatch p s :
  listeners (page s)
  = [("mouseover"%string, OnMouseover); ("mouseout"%string, OnMouseout)] ->
  deliver (pointer_event p) s = invoke (handler p) s.
Proof.
  intros H. destruct p; cbn [deliver pointer_event]; unfold dispatch; rewrite H;
    reflexivity.
Qed.

(** On a hover tooltip with overlay content, a timed sequence of mouseover
    and mouseout events of the page runs the handlers [timed] runs. *)
Lemma hover_events_run_handlers c m l :
  cfg_widgetsForTooltip c = Some m ->
  triggeringEvent (instance c) = "mouseover"%string ->
  run_events (page_events l) (create c) = run (timed l) (create c).
Proof.
  intros Hc Hh.
  assert (H0 : listeners (page (create c))
               = [("mouseover"%string, OnMouseover); ("mouseout"%string, OnMouseout)])
    by now rewrite create_listeners, Hc, Hh.
  revert H0. generalize (create c) as s.
  induction l as [|[t p] l IH]; intros s Hs; [reflexivity|].
  rewrite timed_cons.
  change (run_events (page_events ((t, p) :: l)) s)
    with (run_events (page_events l) (deliver (pointer_event p) (advance t s))).
  rewrite hover_dispatch by now rewrite advance_listeners.
  apply IH. now rewrite invoke_listeners, advance_listeners.
Qed.

(** ** A tooltip configured without [widgetsForTooltip] *)

Lemma run_events_cons e es s :
  run_events (e :: es) s = run_events es (deliver e s).
Proof. reflexivity. Qed.

(** With no listener, no pending timer and no dialog, no event of the page
    reaches the widget. *)
Lemma inert_events :
  forall es s,
    listeners (page s) = [] -> queue (page s) = [] -> _tooltip (this s) = None ->
    this (run_events es s) = this s /\
    trace (page (run_events es s)) = trace (page s) /\
    queue (page (run_events es s)) = [].
Proof.
  induction es as [|e es IH]; intros s Hl Hq Ht; [now repeat split|].
  rewrite run_events_cons.
  assert (He : this (deliver e s) = this s /\
               trace (page (deliver e s)) = trace (page s) /\
               queue (page (deliver e s)) = [] /\
               listeners (page (deliver e s)) = []).
  { destruct e as [name| | |t]; cbn [deliver].
    - unfold dispatch. rewrite Hl. cbn. now repeat split.
    - rewrite Ht. now repeat split.
    - rewrite Ht. now repeat split.
    - destruct (advance_empty t s Hq) as (H1 & H2 & H3 & H4 & _).
      rewrite H4. now repeat split. }
  destruct He as (H1 & H2 & H3 & H4).
  destruct (IH (deliver e s) H4 H3) as (G1 & G2 & G3); [now rewrite H1|].
  rewrite G1, G2, H1, H2. now repeat split.
Qed.

(** C7: a widget configured without [widgetsForTooltip] is created all the
    same.  [postCreate] logs one warning through [alfLog], still hands
    [widgets] (when given) to [processWidgets] for [domNode], and registers
    no listener; after that no event on the trigger, no pointer movement and
    no passing of time changes the widget or makes it call a collaborator,
    so the overlay is never built or opened. *)
Theorem C7_missing_overlay_content (c : Config) (H : cfg_widgetsForTooltip c = None) :
  let s := create c in
  calls s
  = AlfLog "warn"
      "A tooltip dialog was configured without a 'widgetsForTooltip' attribute"
    :: match cfg_widgets c with
       | Some m => [ProcessWidgets (Some m) DomNode]
       | None => []
       end /\
  listeners (page s) = [] /\
  forall es,
    let s' := run_events es s in
    this s' = this s /\ _tooltip (this s') = None /\
    trace (page s') = trace (page s) /\ shown_at s' = [].
Proof.
  intros s. subst s.
  assert (Hl : listeners (page (create c)) = [])
    by (rewrite create_listeners, H; reflexivity).
  destruct (create_page c) as (Hthis & Hq & _).
  split; [rewrite create_calls, H; reflexivity|].
  split; [exact Hl|].
  intros es s'. subst s'.
  destruct (inert_events es (create c) Hl Hq) as (G1 & G2 & _);
    [now rewrite Hthis|].
  split; [exact G1|]. split; [now rewrite G1, Hthis|]. split; [exact G2|].
  apply no_show_call_not_shown.
  unfold count, calls. rewrite G2.
  apply (create_count is_show_call c); reflexivity.
Qed.

Lemma C7_missing_overlay_content_witness :
  cfg_widgetsForTooltip logo_only = None /\
  calls (create logo_only)
  = [AlfLog "warn"
       "A tooltip dialog was configured without a 'widgetsForTooltip' attribute";
     ProcessWidgets (Some ["alfresco/logo/Logo"%string]) DomNode] /\
  shown_at (run_events [Tick 0; Dom "mouseover"; Tick 1000; Dom "click";
                        OverlayLeave; Tick 5000] (create logo_only)) = [].
Proof.
  pose proof (C7_missing_overlay_content logo_only eq_refl) as (Hc & _ & He).
  split; [reflexivity|]. split; [exact Hc|].
  apply (He [Tick 0; Dom "mouseover"; Tick 1000; Dom "click"; OverlayLeave; Tick 5000]).
Defined.

(** ** A tooltip triggered by an explicit event *)

Lemma showTooltip_trace f s :
  trace (page (snd (showTooltip f s)))
  = trace (page s)
    ++ map (pair (clock (page s)))
         match _tooltip (this s) with
         | Some d => [PopupOpen d DomNode]
         | None => construction f s
         end.
Proof.
  unfold showTooltip, construction, popup_open.
  destruct (_tooltip (this s)); destruct f; cbn; rewrite <- ?app_assoc; reflexivity.
Qed.

Lemma shown_at_showTooltip s :
  shown_at (snd (showTooltip NoFault s)) = shown_at s ++ [clock (page s)].
Proof.
  unfold shown_at. rewrite showTooltip_trace, filter_app, map_app.
  destruct (_tooltip (this s)); reflexivity.
Qed.

Lemma dispatch_single name m s :
  listeners (page s) = [(name, m)] -> dispatch name s = invoke m s.
Proof.
  intros H. unfold dispatch. rewrite H. cbn. now rewrite String.eqb_refl.
Qed.

(** C8, as stated, fails: with the triggering event set to click but no
    [widgetsForTooltip], [postCreate] registers no listener at all, and a
    click shows nothing. *)
Lemma C8_no_listener_without_content :
  triggeringEvent (this (create click_without_content)) = "click"%string /\
  listeners (page (create click_without_content)) = [] /\
  shown_at (run_events [Dom "click"] (create click_without_content)) = [].
Proof. vm_compute. repeat split; reflexivity. Qed.

(** C8, amended: when [widgetsForTooltip] is supplied and the triggering
    event is any name other than mouseover, [postCreate] registers exactly
    one listener, on that event name, bound to [showTooltip].  In any state
    of such a widget one such event is a call of [showTooltip]: [popup.open]
    is called at the time of the event, and the timer queue and the two
    recorded timer ids are left as they were.  On the new widget an event at
    time [t] shows the overlay at [t]. *)
Theorem C8_explicit_event_shows_at_once
    (c : Config) (m : Model)
    (Hcontent : cfg_widgetsForTooltip c = Some m)
    (Hevent : triggeringEvent (instance c) <> "mouseover"%string) :
  let ev := triggeringEvent (instance c) in
  listeners (page (create c)) = [(ev, ShowTooltip)] /\
  (forall s,
     listeners (page s) = [(ev, ShowTooltip)] ->
     let s' := deliver (Dom ev) s in
     s' = snd (showTooltip NoFault s) /\
     shown_at s' = shown_at s ++ [clock (page s)] /\
     queue (page s') = queue (page s) /\
     nextTimer (page s') = nextTimer (page s) /\
     _showTooltipTimeout (this s') = _showTooltipTimeout (this s) /\
     _hideTooltipTimeout (this s') = _hideTooltipTimeout (this s)) /\
  (forall t,
     let s' := run_events [Tick t; Dom ev] (create c) in
     shown_at s' = [t] /\ queue (page s') = []).
Proof.
  intros ev.
  assert (Hl : listeners (page (create c)) = [(ev, ShowTooltip)]).
  { rewrite create_listeners, Hcontent.
    destruct (triggeringEvent (instance c) =? "mouseover")%string eqn:E;
      [|reflexivity].
    apply String.eqb_eq in E. contradiction. }
  assert (Hany : forall s,
     listeners (page s) = [(ev, ShowTooltip)] ->
     let s' := deliver (Dom ev) s in
     s' = snd (showTooltip NoFault s) /\
     shown_at s' = shown_at s ++ [clock (page s)] /\
     queue (page s') = queue (page s) /\
     nextTimer (page s') = nextTimer (page s) /\
     _showTooltipTimeout (this s') = _showTooltipTimeout (this s) /\
     _hideTooltipTimeout (this s') = _hideTooltipTimeout (this s)).
  { intros s Hs s'. subst s'. cbn [deliver].
    rewrite (dispatch_single _ _ _ Hs). cbn [invoke].
    destruct (showTooltip_timers NoFault s) as (Hq & Hn & _ & _ & Hst & Hht).
    split; [reflexivity|]. split; [apply shown_at_showTooltip|].
    now repeat split. }
  split; [exact Hl|]. split; [exact Hany|].
  intros t s'. subst s'.
  destruct (create_page c) as (Hthis & Hq & Hclk & _).
  destruct (advance_empty t (create c) Hq) as (A1 & A2 & A3 & A4 & _ & A6).
  change (run_events [Tick t; Dom ev] (create c))
    with (deliver (Dom ev) (advance t (create c))).
  destruct (Hany (advance t (create c))) as (_ & G2 & G3 & _);
    [now rewrite A4|].
  rewrite G2, G3, A3, A6, Hclk. split; [|reflexivity].
  assert (Hnone : shown_at (advance t (create c)) = []).
  { apply no_show_call_not_shown. unfold count, calls. rewrite A2.
    apply (create_count is_show_call c); reflexivity. }
  rewrite Hnone. cbn. f_equal. lia.
Qed.

Lemma C8_explicit_event_shows_at_once_witness :
  cfg_widgetsForTooltip logo_click = Some ["alfresco/html/Label"%string] /\
  triggeringEvent (instance logo_click) <> "mouseover"%string /\
  listeners (page (create logo_click)) = [("click"%string, ShowTooltip)] /\
  shown_at (run_events [Tick 1234; Dom "click"] (create logo_click)) = [1234].
Proof.
  assert (Hne : triggeringEvent (instance logo_click) <> "mouseover"%string)
    by (cbn; discriminate).
  pose proof (C8_explicit_event_shows_at_once logo_click _ eq_refl Hne)
    as (Hl & _ & Ht).
  split; [reflexivity|]. split; [exact Hne|]. split; [exact Hl|].
  apply (Ht 1234).
Defined.

(** ** The dialog is built once *)






(** A property kept by every listener is kept by [dispatch]. *)
Lemma dispatch_invariant (P : State -> Prop) name s :
  (forall l s', In l (listeners (page s)) -> P s' -> P (invoke (snd l) s')) ->
  P s -> P (dispatch name s).
Proof.
  unfold dispatch. generalize (listeners (page s)) as ls.
  intros ls. revert s.
  induction ls as [|l ls IH]; intros s Hstep Hs; [exact Hs|].
  cbn [fold_left]. apply IH.
  - intros l' s' Hin. apply Hstep. now right.
  - destruct (fst l =? name)%string; [|exact Hs].
    apply Hstep; [now left|exact Hs].
Qed.






(** ** Timers of a tooltip triggered by an explicit event *)

(** Listeners bound to [showTooltip] leave the timers, the recorded ids and
    the count of [popup.close] calls as they are. *)
Lemma dispatch_show_only name s :
  Forall (fun l => snd l = ShowTooltip) (listeners (page s)) ->
  let s' := dispatch name s in
  queue (page s') = queue (page s) /\
  nextTimer (page s') = nextTimer (page s) /\
  listeners (page s') = listeners (page s) /\
  _showTooltipTimeout (this s') = _showTooltipTimeout (this s) /\
  _hideTooltipTimeout (this s') = _hideTooltipTimeout (this s) /\
  count is_close s' = count is_close s.
Proof.
  intros Hl. cbv zeta.
  apply dispatch_invariant; [|now repeat split].
  intros l s1 Hin (H1 & H2 & H3 & H4 & H5 & H6).
  rewrite Forall_forall in Hl. rewrite (Hl l Hin). cbn [invoke].
  destruct (showTooltip_timers NoFault s1) as (G1 & G2 & _ & G3 & G4 & G5).
  cbv zeta in *. rewrite G1, G2, G3, G4, G5.
  repeat split; try assumption.
  rewrite <- H6. unfold count, calls.
  rewrite showTooltip_trace, map_app, filter_app, length_app.
  destruct (_tooltip (this s1)); cbn; lia.
Qed.

Lemma advance_hide_only t s :
  Forall (fun tm => cb tm = HideTooltip) (queue (page s)) ->
  let s' := advance t s in
  listeners (page s') = listeners (page s) /\
  (exists fired, queue (page s) = fired ++ queue (page s')).
Proof.
  intros Hq. cbv zeta. unfold advance. cbn [page on_page listeners queue set_clock].
  apply run_timers_invariant with
    (P := fun s' => listeners (page s') = listeners (page s) /\
                    exists fired, queue (page s) = fired ++ queue (page s')).
  - intros s1 tm q (H1 & fired & H2) Hq1 _.
    assert (Hin : In tm (queue (page s))).
    { rewrite H2, Hq1. apply in_or_app. right. now left. }
    rewrite Forall_forall in Hq. rewrite (Hq tm Hin). cbn [invoke].
    split; [exact H1|].
    exists (fired ++ [tm]). rewrite <- app_assoc. cbn. now rewrite <- Hq1.
  - split; [reflexivity|now exists []].
Qed.

Lemma Forall_suffix {A} (P : A -> Prop) l fired rest :
  Forall P l -> l = fired ++ rest -> Forall P rest.
Proof. intros H ->. now apply Forall_app in H. Qed.

Lemma explicit_only_deliver e s : explicit_only s -> explicit_only (deliver e s).
Proof.
  intros [Hl Hq]. destruct e as [name| | |t]; cbn [deliver].
  - destruct (dispatch_show_only name s Hl) as (G1 & _ & G3 & _).
    cbv zeta in *. unfold explicit_only. now rewrite G1, G3.
  - destruct (_tooltip (this s)); [|now split].
    split; [exact Hl|]. cbn.
    apply Forall_forall. intros x Hx. apply filter_In in Hx as [Hx _].
    rewrite Forall_forall in Hq. now apply Hq.
  - destruct (_tooltip (this s)); [|now split].
    split; [exact Hl|]. cbn [invoke].
    destruct (onTooltipMouseout_spec s) as (G1 & _). cbv zeta in G1. rewrite G1.
    apply Forall_forall. intros x Hx. apply In_enqueue in Hx as [-> | Hx];
      [reflexivity|].
    rewrite Forall_forall in Hq. now apply Hq.
  - destruct (advance_hide_only t s Hq) as (G1 & fired & G2). cbv zeta in G1.
    split; [now rewrite G1|]. exact (Forall_suffix _ _ _ _ Hq G2).
Qed.

Lemma explicit_only_run es : forall s, explicit_only s -> explicit_only (run_events es s).
Proof.
  induction es as [|e es IH]; intros s H; [exact H|].
  rewrite run_events_cons. now apply IH, explicit_only_deliver.
Qed.

(** No event other than the pointer leaving the overlay adds a timer. *)
Lemma explicit_only_no_new_timer e s :
  explicit_only s -> is_overlay_leave e = false ->
  incl (queue (page (deliver e s))) (queue (page s)).
Proof.
  intros [Hl Hq] He. destruct e as [name| | |t]; cbn [deliver]; try discriminate.
  - destruct (dispatch_show_only name s Hl) as (G1 & _). cbv zeta in G1.
    rewrite G1. apply incl_refl.
  - destruct (_tooltip (this s)); [|apply incl_refl].
    cbn. intros x Hx. now apply filter_In in Hx as [Hx _].
  - destruct (advance_hide_only t s Hq) as (_ & fired & G2).
    intros x Hx. rewrite G2. apply in_or_app. now right.
Qed.

(** Until the pointer leaves the overlay no timer is pending and
    [popup.close] is not called. *)
Lemma explicit_only_stays_open es :
  forall s,
    explicit_only s -> existsb is_overlay_leave es = false ->
    queue (page s) = [] ->
    queue (page (run_events es s)) = [] /\
    count is_close (run_events es s) = count is_close s.
Proof.
  induction es as [|e es IH]; intros s Hs Hes Hq; [now split|].
  rewrite run_events_cons. cbn [existsb] in Hes.
  apply orb_false_iff in Hes as [He Hes].
  assert (Hstep : queue (page (deliver e s)) = [] /\
                  count is_close (deliver e s) = count is_close s).
  { destruct Hs as [Hl _]. destruct e as [name| | |t]; cbn [deliver]; try discriminate.
    - destruct (dispatch_show_only name s Hl) as (G1 & _ & _ & _ & _ & G6).
      cbv zeta in *. now rewrite G1, G6.
    - destruct (_tooltip (this s)); [|now split]. cbn. now rewrite Hq.
    - destruct (advance_empty t s Hq) as (_ & G2 & G3 & _).
      unfold count, calls. now rewrite G2, G3. }
  destruct Hstep as [Hq' Hc'].
  destruct (IH (deliver e s)) as [G1 G2]; try assumption.
  - now apply explicit_only_deliver.
  - split; [exact G1|]. now rewrite G2.
Qed.

Lemma paired_leave_was_entered es :
  forall inside,
    pointer_paired inside es = true -> existsb is_overlay_leave es = true ->
    entered_then_left inside es = true.
Proof.
  induction es as [|e es IH]; intros inside Hp Hl; [discriminate|].
  destruct e as [name| | |t]; cbn in *.
  - auto.
  - auto.
  - apply andb_true_iff in Hp as [-> _]. reflexivity.
  - auto.
Qed.

Lemma explicit_only_create c :
  triggeringEvent (instance c) <> "mouseover"%string -> explicit_only (create c).
Proof.
  intros H. destruct (create_page c) as (_ & Hq & _).
  unfold explicit_only. rewrite Hq, create_listeners.
  split; [|constructor].
  destruct (cfg_widgetsForTooltip c); [|constructor].
  destruct (triggeringEvent (instance c) =? "mouseover")%string eqn:E.
  - apply String.eqb_eq in E. contradiction.
  - repeat constructor.
Qed.

(** C10: on a widget whose triggering event is not mouseover, after any
    events of the page, (1) an event of any name on the trigger leaves the
    timer queue, the next timer id and both recorded ids as they were; (2)
    every pending timer is a hide timer, and no event other than the pointer
    leaving the overlay adds a timer to the queue; (3) as long as the pointer
    has not left the overlay no timer is pending and [popup.close] has not
    been called, so, the pointer leaving the overlay only after it entered
    it, a call of [popup.close] means the pointer entered the overlay and
    then left it. *)
Theorem C10_explicit_trigger_leaves_timers_alone
    (c : Config) (Hevent : triggeringEvent (instance c) <> "mouseover"%string)
    (es : list Event) :
  let s := run_events es (create c) in
  (forall name,
     let s' := deliver (Dom name) s in
     queue (page s') = queue (page s) /\
     nextTimer (page s') = nextTimer (page s) /\
     _showTooltipTimeout (this s') = _showTooltipTimeout (this s) /\
     _hideTooltipTimeout (this s') = _hideTooltipTimeout (this s)) /\
  Forall (fun tm => cb tm = HideTooltip) (queue (page s)) /\
  (forall e,
     is_overlay_leave e = false ->
     incl (queue (page (deliver e s))) (queue (page s))) /\
  (existsb is_overlay_leave es = false ->
   queue (page s) = [] /\ count is_close s = 0%nat) /\
  (pointer_paired false es = true -> count is_close s <> 0%nat ->
   entered_then_left false es = true).
Proof.
  intros s.
  assert (H0 : explicit_only (create c)) by now apply explicit_only_create.
  assert (Hs : explicit_only s) by now apply explicit_only_run.
  assert (Hopen : existsb is_overlay_leave es = false ->
                  queue (page s) = [] /\ count is_close s = 0%nat).
  { intros Hno. destruct (create_page c) as (_ & Hq & _).
    destruct (explicit_only_stays_open es (create c) H0 Hno Hq) as [G1 G2].
    split; [exact G1|]. fold s in G2. rewrite G2.
    apply create_count; reflexivity. }
  split; [|split; [|split; [|split]]].
  - intros name s'. destruct Hs as [Hl _].
    destruct (dispatch_show_only name s Hl) as (G1 & G2 & _ & G4 & G5 & _).
    now repeat split.
  - apply Hs.
  - intros e He. now apply explicit_only_no_new_timer.
  - exact Hopen.
  - intros Hp Hc. apply paired_leave_was_entered; [exact Hp|].
    destruct (existsb is_overlay_leave es) eqn:E; [reflexivity|].
    destruct (Hopen eq_refl) as [_ Hz]. contradiction.
Qed.

Lemma C10_explicit_trigger_leaves_timers_alone_witness :
  triggeringEvent (instance logo_click) <> "mouseover"%string /\
  (let s := run_events [Tick 5; Dom "click"; Dom "mouseout"; OverlayEnter; Tick 90000]
              (create logo_click) in
   queue (page s) = [] /\ count is_close s = 0%nat) /\
  entered_then_left false
    [Dom "click"; OverlayEnter; Tick 10; OverlayLeave; Tick 500] = true.
Proof.
  assert (Hne : triggeringEvent (instance logo_click) <> "mouseover"%string)
    by (cbn; discriminate).
  split; [exact Hne|]. split.
  - apply (C10_explicit_trigger_leaves_timers_alone logo_click Hne
             [Tick 5; Dom "click"; Dom "mouseout"; OverlayEnter; Tick 90000]).
    reflexivity.
  - apply (C10_explicit_trigger_leaves_timers_alone logo_click Hne
             [Dom "click"; OverlayEnter; Tick 10; OverlayLeave; Tick 500]).
    + reflexivity.
    + vm_compute. discriminate.
Defined.

(** ** Teardown *)












(** * More properties of the widget *)

(** ** Properties kept by every operation *)

Lemma step_invariant (P : State -> Prop) :
  (forall m s, P s -> P (invoke m s)) ->
  (forall tm q s, P s -> queue (page s) = tm :: q -> P (popped tm q s)) ->
  (forall t s, P s -> P (on_page (fun p => set_clock (N.max (clock p) t) p) s)) ->
  forall o s, P s -> P (step o s).
Proof.
  intros Hm Hp Hc [e|m] s Hs; cbn [step]; [|now apply Hm].
  destruct e as [name| | |t]; cbn [deliver].
  - apply dispatch_invariant; [|exact Hs]. intros l s' _. apply Hm.
  - destruct (_tooltip (this s)); [now apply Hm|exact Hs].
  - destruct (_tooltip (this s)); [now apply Hm|exact Hs].
  - unfold advance. apply Hc. apply run_timers_invariant; [|exact Hs].
    intros s1 tm q H1 Hq _. apply Hm. now apply Hp.
Qed.

Lemma run_invariant (P : State -> Prop) :
  (forall m s, P s -> P (invoke m s)) ->
  (forall tm q s, P s -> queue (page s) = tm :: q -> P (popped tm q s)) ->
  (forall t s, P s -> P (on_page (fun p => set_clock (N.max (clock p) t) p) s)) ->
  forall ops s, P s -> P (run ops s).
Proof.
  intros Hm Hp Hc. induction ops as [|o ops IH]; intros s Hs; [exact Hs|].
  change (run (o :: ops) s) with (run ops (step o s)).
  apply IH. now apply step_invariant.
Qed.

(** ** Configuration, listeners and the order of calls *)

Lemma same_config_fields c w :
  same_config c w ->
  id w = cfg_id c /\
  widgetsForTooltip w = cfg_widgetsForTooltip c /\
  widgets w = cfg_widgets c /\
  tooltipStyle w = cfg_tooltipStyle c /\
  triggeringEvent w = triggeringEvent (instance c) /\
  mouseoverShowDelay w = mouseoverShowDelay (instance c) /\
  mouseoutHideDelay w = mouseoutHideDelay (instance c).
Proof.
  unfold same_config. intros H.
  repeat split.
  - exact (f_equal id H).
  - exact (f_equal widgetsForTooltip H).
  - exact (f_equal widgets H).
  - exact (f_equal tooltipStyle H).
  - exact (f_equal triggeringEvent H).
  - exact (f_equal mouseoverShowDelay H).
  - exact (f_equal mouseoutHideDelay H).
Qed.

Lemma same_config_invoke c m s :
  same_config c (this s) -> same_config c (this (invoke m s)).
Proof.
  unfold same_config. intros H. destruct m; cbn [invoke]; try exact H.
  unfold showTooltip. destruct (_tooltip (this s)); exact H.
Qed.

Lemma repeat_snoc {A} (x : A) k : repeat x k ++ [x] = repeat x (S k).
Proof. induction k as [|k IH]; cbn; [reflexivity|]. now rewrite IH. Qed.

Lemma lifecycle_frame c s s' :
  this s' = this s -> listeners (page s') = listeners (page s) ->
  trace (page s') = trace (page s) -> nextObj (page s') = nextObj (page s) ->
  lifecycle c s -> lifecycle c s'.
Proof.
  unfold lifecycle, calls. intros -> -> -> ->. trivial.
Qed.

Lemma lifecycle_create c : lifecycle c (create c).
Proof.
  destruct (create_page c) as (Hthis & _ & _ & _ & Hobj).
  unfold lifecycle. rewrite Hthis. split; [reflexivity|]. split; [reflexivity|].
  cbn. split; [exact Hobj|]. split; [reflexivity|].
  exists 0%nat. cbn. now rewrite app_nil_r.
Qed.

Lemma lifecycle_invoke c m s : lifecycle c s -> lifecycle c (invoke m s).
Proof.
  intros (Hcfg & Hl & Hlife).
  split; [now apply same_config_invoke|]. split; [now rewrite invoke_listeners|].
  destruct (same_config_fields c (this s) Hcfg) as (Hid & Hwft & _ & Hst & _).
  destruct m; cbn [invoke]; try exact Hlife.
  - (* showTooltip *)
    destruct (_tooltip (this s)) as [d|] eqn:E.
    + destruct Hlife as (-> & Hdc & k & after & Hcalls & Hafter).
      rewrite (showTooltip_present NoFault 1 s E).
      destruct (popup_open_spec NoFault 1 s) as (Ht & Hc & _). cbv zeta in Ht, Hc.
      rewrite Ht, E, Hc. split; [reflexivity|]. split; [exact Hdc|].
      exists k, (after ++ [PopupOpen 1 DomNode]). split.
      * rewrite Hcalls, <- !app_assoc. reflexivity.
      * apply Forall_app. split; [exact Hafter|].
        constructor; [now left|constructor].
    + destruct Hlife as (Hobj & Hdc & k & Hcalls).
      destruct (showTooltip_absent NoFault s E) as (Hc & _ & Ht & _).
      cbv zeta in Hc, Ht. rewrite Ht, Hobj. split; [reflexivity|]. split.
      * unfold showTooltip. rewrite E. cbn. now rewrite Hobj.
      * exists k, []. split; [|constructor].
        rewrite Hc, Hcalls. unfold construction, built_calls.
        rewrite Hobj, Hid, Hwft, Hst, app_nil_r, <- !app_assoc. reflexivity.
  - (* hideTooltip *)
    unfold hideTooltip. rewrite calls_call.
    change (this (call (PopupClose (_tooltip (this s))) s)) with (this s).
    change (nextObj (page (call (PopupClose (_tooltip (this s))) s)))
      with (nextObj (page s)).
    destruct (_tooltip (this s)) as [d|] eqn:E.
    + destruct Hlife as (-> & Hdc & k & after & Hcalls & Hafter).
      split; [reflexivity|]. split; [exact Hdc|].
      exists k, (after ++ [PopupClose (Some 1)]). split.
      * rewrite Hcalls, <- !app_assoc. reflexivity.
      * apply Forall_app. split; [exact Hafter|].
        constructor; [now right|constructor].
    + destruct Hlife as (Hobj & Hdc & k & Hcalls).
      split; [exact Hobj|]. split; [exact Hdc|].
      exists (S k). now rewrite Hcalls, <- app_assoc, repeat_snoc.
Qed.

Lemma lifecycle_run c ops : lifecycle c (run ops (create c)).
Proof.
  apply run_invariant.
  - intros m s. apply lifecycle_invoke.
  - intros tm q s H _. revert H. now apply lifecycle_frame.
  - intros t s. now apply lifecycle_frame.
  - apply lifecycle_create.
Qed.

(** X1: no operation changes what the configuration set, and none adds or
    removes a listener: after any operations the widget still has the id,
    the two widget models, the style, the triggering event and the two
    delays it was created with, and the listeners [postCreate] registered. *)
Theorem configuration_never_changes (c : Config) (ops : list Op) :
  let s := run ops (create c) in
  id (this s) = cfg_id c /\
  widgetsForTooltip (this s) = cfg_widgetsForTooltip c /\
  widgets (this s) = cfg_widgets c /\
  tooltipStyle (this s) = cfg_tooltipStyle c /\
  triggeringEvent (this s) = triggeringEvent (instance c) /\
  mouseoverShowDelay (this s) = mouseoverShowDelay (instance c) /\
  mouseoutHideDelay (this s) = mouseoutHideDelay (instance c) /\
  listeners (page s) = listeners (page (create c)).
Proof.
  intros s. destruct (lifecycle_run c ops) as (Hcfg & Hl & _). fold s in Hcfg, Hl.
  destruct (same_config_fields c (this s) Hcfg) as (H1 & H2 & H3 & H4 & H5 & H6 & H7).
  repeat split; assumption.
Qed.


Lemma filter_repeat_none {A} (g : A -> bool) x k :
  g x = false -> filter g (repeat x k) = [].
Proof. intros H. induction k as [|k IH]; cbn; [reflexivity|]. now rewrite H. Qed.

Lemma filter_on_dialog g after :
  g (PopupOpen 1 DomNode) = false -> g (PopupClose (Some 1)) = false ->
  Forall on_dialog after -> filter g after = [].
Proof.
  intros Ho Hc. induction 1 as [|x l [-> | ->] _ IH]; cbn; [reflexivity| |].
  - now rewrite Ho.
  - now rewrite Hc.
Qed.

(** X3: the primary content is processed by [postCreate] and never again,
    and the missing-tooltip warning is logged by [postCreate] and never
    again: in the whole life of the widget [processWidgets] is called on
    [domNode] once if [widgets] was supplied and not at all otherwise, and
    [alfLog] once if [widgetsForTooltip] was left out and not at all
    otherwise. *)
Theorem primary_content_processed_once (c : Config) (ops : list Op) :
  let s := run ops (create c) in
  count is_primary s = match cfg_widgets c with Some _ => 1 | None => 0 end%nat /\
  count is_warning s
  = match cfg_widgetsForTooltip c with Some _ => 0 | None => 1 end%nat.
Proof.
  intros s. destruct (lifecycle_run c ops) as (_ & _ & H). fold s in H.
  assert (Hshape : exists rest,
            calls s = calls (create c) ++ rest /\
            filter is_primary rest = [] /\ filter is_warning rest = []).
  { destruct (_tooltip (this s)).
    - destruct H as (_ & _ & k & after & Hc & Ha).
      exists (repeat (PopupClose None) k ++ built_calls c ++ after).
      split; [exact Hc|].
      rewrite !filter_app, !filter_repeat_none by reflexivity.
      rewrite !(filter_on_dialog _ after) by (reflexivity || assumption).
      now split.
    - destruct H as (_ & _ & k & Hc). exists (repeat (PopupClose None) k).
      split; [exact Hc|]. now rewrite !filter_repeat_none. }
  destruct Hshape as (rest & Hc & Hp & Hw).
  unfold count. rewrite Hc, !filter_app, Hp, Hw, !app_nil_r, create_calls.
  destruct (cfg_widgetsForTooltip c), (cfg_widgets c); split; reflexivity.
Qed.

(** ** The timer queue in every reachable state *)

Lemma enqueue_perm tm q : Permutation (enqueue tm q) (tm :: q).
Proof.
  induction q as [|x q IH]; cbn; [reflexivity|].
  destruct (due x <=? due tm); [|reflexivity].
  rewrite IH. apply perm_swap.
Qed.

Lemma NoDup_map_filter {A B} (h : A -> B) (g : A -> bool) l :
  NoDup (map h l) -> NoDup (map h (filter g l)).
Proof.
  induction l as [|x l IH]; cbn; intros H; [constructor|].
  inversion H as [|? ? Hx Hl]; subst.
  destruct (g x); cbn; [|now apply IH].
  constructor; [|now apply IH].
  intros Hin. apply Hx. apply in_map_iff in Hin as (y & Hy & Hin).
  apply in_map_iff. exists y. split; [exact Hy|].
  now apply filter_In in Hin as [Hin _].
Qed.

Lemma well_kept_filter g n q : well_kept n q -> well_kept n (filter g q).
Proof.
  intros (Ho & Hm & Hd & Hb & Hn). repeat split.
  - now apply filter_in_order.
  - apply Forall_forall. intros x Hx. apply filter_In in Hx as [Hx _].
    rewrite Forall_forall in Hm. now apply Hm.
  - now apply NoDup_map_filter.
  - apply Forall_forall. intros x Hx. apply filter_In in Hx as [Hx _].
    rewrite Forall_forall in Hb. now apply Hb.
  - exact Hn.
Qed.

Lemma well_kept_enqueue n d m q :
  timer_method (mkTimer n d m) -> well_kept n q ->
  well_kept (N.succ n) (enqueue (mkTimer n d m) q).
Proof.
  intros Htm (Ho & Hm & Hd & Hb & Hn). repeat split.
  - now apply enqueue_in_order.
  - apply Forall_forall. intros x Hx. apply In_enqueue in Hx as [-> | Hx];
      [exact Htm|].
    rewrite Forall_forall in Hm. now apply Hm.
  - apply (Permutation_NoDup (l := map tid (mkTimer n d m :: q))).
    + apply Permutation_map. symmetry. apply enqueue_perm.
    + cbn. constructor; [|exact Hd].
      intros Hin. apply in_map_iff in Hin as (y & Hy & Hin).
      rewrite Forall_forall in Hb. specialize (Hb y Hin). lia.
  - apply Forall_forall. intros x Hx. apply In_enqueue in Hx as [-> | Hx].
    + cbn. lia.
    + rewrite Forall_forall in Hb. specialize (Hb x Hx). lia.
  - lia.
Qed.

Lemma well_kept_tail n tm q : well_kept n (tm :: q) -> well_kept n q.
Proof.
  intros (Ho & Hm & Hd & Hb & Hn). repeat split.
  - unfold in_order in *. now inversion Ho.
  - now inversion Hm.
  - cbn in Hd. now inversion Hd.
  - now inversion Hb.
  - exact Hn.
Qed.

Lemma queue_ok_invoke m s : queue_ok s -> queue_ok (invoke m s).
Proof.
  unfold queue_ok. intros H. destruct m; cbn [invoke].
  - destruct (showTooltip_timers NoFault s) as (Hq & Hn & _).
    cbv zeta in Hq, Hn. now rewrite Hq, Hn.
  - exact H.
  - apply well_kept_enqueue; [now left|]. now apply well_kept_filter.
  - apply well_kept_enqueue; [now right|]. now apply well_kept_filter.
  - now apply well_kept_filter.
  - apply well_kept_enqueue; [now right|]. exact H.
Qed.

Lemma queue_ok_run c ops : queue_ok (run ops (create c)).
Proof.
  apply run_invariant.
  - intros m s. apply queue_ok_invoke.
  - intros tm q s H Hq. unfold queue_ok in *. cbn. rewrite Hq in H.
    now apply well_kept_tail in H.
  - intros t s H. exact H.
  - destruct (create_page c) as (_ & Hq & _ & Hn & _).
    unfold queue_ok, well_kept, in_order. rewrite Hq, Hn.
    repeat split; try constructor. discriminate.
Qed.

Lemma filter_all {A} (g : A -> bool) l :
  Forall (fun x => g x = true) l -> filter g l = l.
Proof.
  induction 1 as [|x l Hx _ IH]; cbn; [reflexivity|]. now rewrite Hx, IH.
Qed.

(** X4: in every state a widget reaches, the pending timers are callbacks
    to [showTooltip] or [hideTooltip] only, under ids that are positive,
    pairwise distinct and smaller than the next id, and they stand in firing
    order.  So [clearTimeout] on 0, the value [_showTooltipTimeout] and
    [_hideTooltipTimeout] start with, cancels nothing, and when the clock has
    moved to [t] every timer still pending is due after [t]. *)
Theorem timers_well_kept (c : Config) (ops : list Op) :
  let s := run ops (create c) in
  Forall timer_method (queue (page s)) /\
  NoDup (map tid (queue (page s))) /\
  Forall (fun tm => 1 <= tid tm < nextTimer (page s)) (queue (page s)) /\
  in_order (queue (page s)) /\
  queue (page (clearTimeout 0 s)) = queue (page s) /\
  forall t, Forall (fun tm => t < due tm) (queue (page (advance t s))).
Proof.
  intros s. destruct (queue_ok_run c ops) as (Ho & Hm & Hd & Hb & Hn).
  fold s in Ho, Hm, Hd, Hb, Hn.
  repeat split; try assumption.
  - cbn. apply filter_all. apply Forall_forall. intros x Hx.
    rewrite Forall_forall in Hb. specialize (Hb x Hx).
    apply negb_true_iff, N.eqb_neq. lia.
  - intros t. now apply advance_leaves_later_timers.
Qed.

(** ** One pointer event and the wait after it *)

Lemma tidy_parts s :
  tidy s = true ->
  forallb (is_recorded (this s)) (queue (page s)) = true.
Proof.
  unfold tidy, recorded. intros H.
  apply andb_true_iff in H as [H _]. now apply andb_true_iff in H as [H _].
Qed.

Lemma tidy_clear_hide s :
  tidy s = true -> live ShowTooltip s = [] ->
  filter (fun tm => negb (tid tm =? _hideTooltipTimeout (this s))) (queue (page s)) = [].
Proof.
  intros Ht H0. pose proof (tidy_parts s Ht) as Hr.
  apply (recorded_two_kinds (this s)).
  - now apply forallb_filter_weaken.
  - rewrite filter_filter_comm. unfold live in H0. now rewrite H0.
  - now apply clear_recorded_hide.
Qed.

Lemma tidy_clear_show s :
  tidy s = true -> live HideTooltip s = [] ->
  filter (fun tm => negb (tid tm =? _showTooltipTimeout (this s))) (queue (page s)) = [].
Proof.
  intros Ht H0. pose proof (tidy_parts s Ht) as Hr.
  apply (recorded_two_kinds (this s)).
  - now apply forallb_filter_weaken.
  - now apply clear_recorded_show.
  - rewrite filter_filter_comm. unfold live in H0. now rewrite H0.
Qed.






(** X7: [onTooltipMouseover] cancels the hide timer on record and schedules
    nothing.  When no show timer is pending (and the pending timers are the
    ones on record), no timer is left after it, so however long the pointer
    then rests on the overlay no collaborator is called and no field of the
    widget changes: the overlay stays as it is. *)
Theorem overlay_enter_cancels_hide
    (s : State) (Ht : tidy s = true) (Hs : live ShowTooltip s = []) :
  let s' := onTooltipMouseover s in
  queue (page s') = [] /\
  forall t,
    trace (page (advance t s')) = trace (page s) /\
    this (advance t s') = this s /\
    queue (page (advance t s')) = [].
Proof.
  intros s'.
  assert (Hq : queue (page s') = []).
  { destruct (onTooltipMouseover_spec s) as (Hq & _).
    unfold s'. now rewrite Hq, (tidy_clear_hide s Ht Hs). }
  split; [exact Hq|]. intros t.
  destruct (advance_empty t s' Hq) as (H1 & H2 & H3 & _).
  rewrite H1, H2. now repeat split.
Qed.

Lemma overlay_enter_cancels_hide_witness :
  let s := run_events [Tick 0; Dom "mouseover"; Tick 400; Dom "mouseout"; Tick 500]
             (create logo_hover) in
  tidy s = true /\ live ShowTooltip s = [] /\
  queue (page s) = [mkTimer 2 650 HideTooltip] /\
  trace (page (advance 100000 (onTooltipMouseover s))) = trace (page s).
Proof.
  intros s. split; [reflexivity|]. split; [reflexivity|]. split; [reflexivity|].
  apply (overlay_enter_cancels_hide s eq_refl eq_refl).
Defined.



(** ** Whole passes of the pointer, at any times *)





Tactic Notation "any_config" constr(c) ident(sd) ident(hd) :=
  rewrite (create_unfold c); cbv zeta;
  let i := fresh "i" in let wt := fresh "wt" in let w := fresh "w" in
  let st := fresh "st" in let te := fresh "te" in
  let sd0 := fresh "sd0" in let hd0 := fresh "hd0" in
  destruct c as [i wt w st te sd0 hd0];
  cbv [instance cfg_id cfg_widgetsForTooltip cfg_widgets cfg_tooltipStyle
       cfg_triggeringEvent cfg_mouseoverShowDelay cfg_mouseoutHideDelay
       triggeringEvent mouseoverShowDelay mouseoutHideDelay];
  generalize (or_default sd0 250) as sd; generalize (or_default hd0 250) as hd;
  intros hd sd;
  destruct wt;
    [destruct (or_default te "mouseover" =? "mouseover")%string|];
    destruct w.








(** ** Alternating enters and leaves *)

Lemma recorded_timer_method w q :
  forallb (is_recorded w) q = true -> Forall timer_method q.
Proof.
  induction q as [|x q IH]; cbn; intros H; [constructor|].
  apply andb_true_iff in H as [Hx Hq]. constructor; [|now apply IH].
  unfold is_recorded in Hx. unfold timer_method.
  destruct (cb x); try discriminate; auto.
Qed.

Lemma advance_slots t s :
  Forall timer_method (queue (page s)) ->
  _showTooltipTimeout (this (advance t s)) = _showTooltipTimeout (this s) /\
  _hideTooltipTimeout (this (advance t s)) = _hideTooltipTimeout (this s).
Proof.
  intros Hm. unfold advance. cbn [this on_page].
  assert (H : (_showTooltipTimeout (this (run_timers (List.length (queue (page s))) t s))
               = _showTooltipTimeout (this s) /\
               _hideTooltipTimeout (this (run_timers (List.length (queue (page s))) t s))
               = _hideTooltipTimeout (this s)) /\
              exists fired,
                queue (page s)
                = fired ++ queue (page (run_timers (List.length (queue (page s))) t s))).
  { apply run_timers_invariant with
      (P := fun s' =>
         (_showTooltipTimeout (this s') = _showTooltipTimeout (this s) /\
          _hideTooltipTimeout (this s') = _hideTooltipTimeout (this s)) /\
         exists fired, queue (page s) = fired ++ queue (page s')).
    - intros s1 tm q ((H1 & H2) & fired & Hf) Hq _.
      assert (Htm : timer_method tm).
      { rewrite Forall_forall in Hm. apply Hm. rewrite Hf, Hq.
        apply in_or_app. right. now left. }
      split.
      + destruct Htm as [E|E]; rewrite E; cbn [invoke].
        * destruct (showTooltip_timers NoFault (popped tm q s1))
            as (_ & _ & _ & _ & G1 & G2).
          cbv zeta in G1, G2. rewrite G1, G2. now split.
        * now split.
      + rewrite (callback_keeps_queue tm q s1 Htm).
        exists (fired ++ [tm]). rewrite <- app_assoc. cbn. now rewrite <- Hq.
    - split; [now split | now exists []]. }
  apply H.
Qed.

Lemma is_recorded_slots w w' tm :
  _showTooltipTimeout w' = _showTooltipTimeout w ->
  _hideTooltipTimeout w' = _hideTooltipTimeout w ->
  is_recorded w' tm = is_recorded w tm.
Proof. unfold is_recorded. now intros -> ->. Qed.

Lemma forallb_same {A} (g h : A -> bool) l :
  (forall x, g x = h x) -> forallb g l = forallb h l.
Proof.
  intros H. induction l as [|x l IH]; cbn; [reflexivity|]. now rewrite H, IH.
Qed.

(** Timers that fire leave a tidy state tidy, and no kind of timer appears
    that was not pending. *)
Lemma advance_tidy t s :
  tidy s = true ->
  tidy (advance t s) = true /\
  forall m, live m s = [] -> live m (advance t s) = [].
Proof.
  intros Ht. pose proof (tidy_parts s Ht) as Hr.
  pose proof (recorded_timer_method _ _ Hr) as Hm.
  destruct (advance_suffix t s Hm) as (fired & Hf).
  destruct (advance_slots t s Hm) as (Hs1 & Hs2).
  split.
  - unfold tidy in *. apply andb_true_iff in Ht as [Ht Hh].
    apply andb_true_iff in Ht as [_ Hs].
    unfold recorded, at_most_one, live in *.
    rewrite Hf in Hr, Hs, Hh. rewrite forallb_app in Hr.
    apply andb_true_iff in Hr as [_ Hr].
    rewrite filter_app, length_app in Hs, Hh.
    apply Nat.leb_le in Hs, Hh.
    apply andb_true_iff. split; [apply andb_true_iff; split|].
    + rewrite <- Hr. apply forallb_same. intros tm.
      now apply is_recorded_slots.
    + apply Nat.leb_le. lia.
    + apply Nat.leb_le. lia.
  - intros m H0. now apply (live_nil_suffix m s (advance t s) fired).
Qed.

Lemma handler_tidy p s :
  tidy s = true -> ready_for [(0, p)] s ->
  let s' := invoke (handler p) s in
  tidy s' = true /\
  match p with
  | Enter => live HideTooltip s' = []
  | Leave => live ShowTooltip s' = []
  end.
Proof.
  intros Ht Hr. destruct p; cbn [handler invoke ready_for] in *.
  - destruct (onMouseover_spec s) as (Hq & Hw & _). cbv zeta in Hq.
    rewrite (tidy_clear_hide s Ht Hr) in Hq. cbn [enqueue] in Hq.
    unfold tidy, recorded, at_most_one, live. rewrite Hq, Hw. cbn.
    now rewrite N.eqb_refl.
  - destruct (onMouseout_spec s) as (Hq & Hw & _). cbv zeta in Hq.
    rewrite (tidy_clear_show s Ht Hr) in Hq. cbn [enqueue] in Hq.
    unfold tidy, recorded, at_most_one, live. rewrite Hq, Hw. cbn.
    now rewrite N.eqb_refl.
Qed.

Lemma alternating_keeps_tidy :
  forall l s,
    alternating l = true -> tidy s = true -> ready_for l s ->
    forall k, tidy (run (timed (firstn k l)) s) = true.
Proof.
  induction l as [|[t p] l IH]; intros s Ha Ht Hr k.
  - now rewrite firstn_nil.
  - destruct k as [|k]; [exact Ht|].
    cbn [firstn]. rewrite timed_cons.
    destruct (advance_tidy t s Ht) as (Ht1 & Hlive).
    assert (Hr1 : ready_for [(0, p)] (advance t s)).
    { destruct p; cbn [ready_for] in *; now apply Hlive. }
    destruct (handler_tidy p (advance t s) Ht1 Hr1) as (Ht2 & Hnext).
    apply IH; [|exact Ht2|].
    + destruct l as [|[t2 p2] l']; [reflexivity|].
      cbn [alternating] in Ha. now destruct p, p2.
    + destruct l as [|[t2 p2] l']; [exact I|].
      cbn [alternating] in Ha. destruct p, p2; try discriminate; exact Hnext.
Qed.

(** X12: as long as enters and leaves of the trigger alternate, whenever
    they come and whatever timers fire in between, the widget keeps track of
    its timers: after any number of the events every pending timer is the
    one recorded in [_showTooltipTimeout] or [_hideTooltipTimeout], and at
    most one timer of each kind is pending. *)
Theorem alternating_pointer_keeps_timers_recorded
    (c : Config) (l : list (N * Pointer)) (H : alternating l = true) :
  forall k,
    let s := run (timed (firstn k l)) (create c) in
    recorded s = true /\
    (List.length (live ShowTooltip s) <= 1)%nat /\
    (List.length (live HideTooltip s) <= 1)%nat.
Proof.
  intros k s.
  destruct (create_page c) as (_ & Hq & _).
  assert (Ht : tidy s = true).
  { apply alternating_keeps_tidy; [exact H| |].
    - unfold tidy, recorded, at_most_one, live. now rewrite Hq.
    - unfold ready_for, live. rewrite Hq. destruct l as [|[t p] l']; [exact I|].
      now destruct p. }
  unfold tidy in Ht. apply andb_true_iff in Ht as [Ht Hh].
  apply andb_true_iff in Ht as [Hr Hs].
  unfold at_most_one in Hs, Hh. apply Nat.leb_le in Hs, Hh. now repeat split.
Qed.

Lemma alternating_pointer_keeps_timers_recorded_witness :
  alternating [(0, Enter); (10, Leave); (700, Enter); (701, Leave)] = true /\
  recorded (run (timed [(0, Enter); (10, Leave); (700, Enter); (701, Leave)])
              (create logo_hover)) = true.
Proof.
  split; [reflexivity|].
  apply (alternating_pointer_keeps_timers_recorded logo_hover
           [(0, Enter); (10, Leave); (700, Enter); (701, Leave)] eq_refl 4).
Defined.

(** ** The listeners of a hover tooltip *)

(** X13: a hover tooltip with overlay content listens to mouseover and
    mouseout and to nothing else, for good: in every state it reaches its
    listeners are the two [postCreate] registered, a mouseover on the
    trigger is a call of [onMouseover], a mouseout a call of [onMouseout],
    and an event of any other name (a click, say) leaves the widget
    untouched. *)
Theorem hover_listens_to_pointer_only
    (c : Config) (m : Model)
    (Hcontent : cfg_widgetsForTooltip c = Some m)
    (Hhover : triggeringEvent (instance c) = "mouseover"%string)
    (ops : list Op) :
  let s := run ops (create c) in
  listeners (page s)
  = [("mouseover"%string, OnMouseover); ("mouseout"%string, OnMouseout)] /\
  deliver (Dom "mouseover") s = onMouseover s /\
  deliver (Dom "mouseout") s = onMouseout s /\
  forall name,
    name <> "mouseover"%string -> name <> "mouseout"%string ->
    deliver (Dom name) s = s.
Proof.
  intros s.
  assert (Hl : listeners (page s)
               = [("mouseover"%string, OnMouseover); ("mouseout"%string, OnMouseout)]).
  { destruct (lifecycle_run c ops) as (_ & Hl & _). fold s in Hl.
    now rewrite Hl, create_listeners, Hcontent, Hhover. }
  split; [exact Hl|]. split; [exact (hover_dispatch Enter s Hl)|].
  split; [exact (hover_dispatch Leave s Hl)|].
  intros name H1 H2. cbn [deliver]. unfold dispatch. rewrite Hl.
  cbn [fold_left fst snd].
  destruct (String.eqb_spec "mouseover" name) as [E|_]; [congruence|].
  destruct (String.eqb_spec "mouseout" name) as [E|_]; [congruence|].
  reflexivity.
Qed.

Lemma hover_listens_to_pointer_only_witness :
  cfg_widgetsForTooltip logo_hover = Some ["alfresco/html/Label"%string] /\
  triggeringEvent (instance logo_hover) = "mouseover"%string /\
  let s := run [Ev (Tick 5); Ev (Dom "mouseover"); Ev (Tick 400)] (create logo_hover) in
  deliver (Dom "click") s = s.
Proof.
  split; [reflexivity|]. split; [reflexivity|]. intros s.
  apply (hover_listens_to_pointer_only logo_hover _ eq_refl eq_refl
           [Ev (Tick 5); Ev (Dom "mouseover"); Ev (Tick 400)]);
    discriminate.
Defined.

(** ** Construction that fails and is tried again *)

Lemma attempts_cons f fs s :
  attempts (f :: fs) s = attempts fs (snd (showTooltip f s)).
Proof. reflexivity. Qed.

Lemma failed_attempt f s :
  f = BuildThrows \/ f = CreateThrows -> _tooltip (this s) = None ->
  let s' := snd (showTooltip f s) in
  _tooltip (this s') = None /\
  dialogContent (this s') = Some (Div (nextObj (page s))) /\
  nextObj (page s') = N.succ (nextObj (page s)) /\
  count is_build s' = S (count is_build s) /\
  count is_open s' = count is_open s.
Proof.
  intros Hf H s'.
  destruct (showTooltip_absent f s H) as (Hc & _ & Ht & Hn). fold s' in Hc, Ht, Hn.
  assert (Hd : dialogContent (this s') = Some (Div (nextObj (page s)))).
  { unfold s', showTooltip. rewrite H. destruct Hf; subst f; reflexivity. }
  unfold count. rewrite Hc, !filter_app, !length_app.
  destruct Hf; subst f; cbn; repeat split; try assumption; lia.
Qed.

(** X14: [showTooltip] retries for as long as construction fails.  On a
    widget without dialog, after any number of calls in which
    [processWidgets] or [new TooltipDialog] raised, there is still no dialog
    and nothing was opened, but each call made a new [div] and called
    [processWidgets] on it; [dialogContent] holds the [div] of the last
    failed call.  The next call whose collaborators return builds the
    dialog on a [div] of its own, returns normally, and stores the dialog. *)
Theorem failed_construction_is_retried
    (fs : list Fault) (s : State)
    (Hf : Forall (fun f => f = BuildThrows \/ f = CreateThrows) fs)
    (H : _tooltip (this s) = None) :
  let s' := attempts fs s in
  let n := N.of_nat (List.length fs) in
  _tooltip (this s') = None /\
  count is_build s' = (count is_build s + List.length fs)%nat /\
  count is_open s' = count is_open s /\
  nextObj (page s') = nextObj (page s) + n /\
  (fs <> [] -> dialogContent (this s') = Some (Div (nextObj (page s) + n - 1))) /\
  fst (showTooltip NoFault s') = Returned /\
  calls (snd (showTooltip NoFault s')) = calls s' ++ construction NoFault s' /\
  _tooltip (this (snd (showTooltip NoFault s')))
  = Some (N.succ (nextObj (page s) + n)).
Proof.
  cbv zeta.
  assert (Hmain :
    _tooltip (this (attempts fs s)) = None /\
    count is_build (attempts fs s) = (count is_build s + List.length fs)%nat /\
    count is_open (attempts fs s) = count is_open s /\
    nextObj (page (attempts fs s)) = nextObj (page s) + N.of_nat (List.length fs) /\
    (fs <> [] ->
     dialogContent (this (attempts fs s))
     = Some (Div (nextObj (page s) + N.of_nat (List.length fs) - 1)))).
  { revert s H. induction Hf as [|f fs Hf1 _ IH]; intros s H.
    - cbn. repeat split; try lia; try assumption. congruence.
    - rewrite attempts_cons.
      destruct (failed_attempt f s Hf1 H) as (G1 & G2 & G3 & G4 & G5).
      cbv zeta in G1, G2, G3, G4, G5.
      destruct (IH _ G1) as (I1 & I2 & I3 & I4 & I5).
      rewrite I2, I3, I4, G3, G4, G5.
      cbn [List.length]. rewrite Nat2N.inj_succ.
      repeat split; try assumption; try lia.
      intros _. destruct fs as [|f' fs'].
      + cbn. rewrite G2. f_equal. f_equal. lia.
      + rewrite I5 by discriminate. rewrite G3. f_equal. f_equal. lia. }
  destruct Hmain as (M1 & M2 & M3 & M4 & M5).
  destruct (showTooltip_absent NoFault (attempts fs s) M1) as (Hc & Ho & Ht & _).
  cbv zeta in Hc, Ho, Ht. rewrite Ht, M4.
  repeat split; assumption.
Qed.

Lemma failed_construction_is_retried_witness :
  Forall (fun f => f = BuildThrows \/ f = CreateThrows) [BuildThrows; CreateThrows] /\
  _tooltip (this (create logo_hover)) = None /\
  let s' := attempts [BuildThrows; CreateThrows] (create logo_hover) in
  count is_build s' = 2%nat /\
  _tooltip (this (snd (showTooltip NoFault s'))) = Some 3.
Proof.
  assert (Hf : Forall (fun f => f = BuildThrows \/ f = CreateThrows)
                 [BuildThrows; CreateThrows])
    by (constructor; [now left|constructor; [now right|constructor]]).
  pose proof (failed_construction_is_retried [BuildThrows; CreateThrows]
                (create logo_hover) Hf eq_refl) as (_ & Hb & _ & _ & _ & _ & _ & Ht).
  split; [exact Hf|]. split; [reflexivity|]. split; [exact Hb|exact Ht].
Defined.
